(** * linksnap: origin policy, storage-client configuration, client error text

    A shallow embedding of the three pieces of the repository that carry
    decisions:

    - [backend/src/cors.js]        ([escapeRegExp], [toWildcardRegExp],
                                    [parseAllowedOrigins],
                                    [createCorsMiddleware], [isAllowed]);
    - [backend/src/cloudinary.js]  ([assertEnv], [ensureConfigured]);
    - [frontend/src/app/page.tsx]  ([extractErrorMessage]).

    JavaScript strings are sequences of UTF-16 code units; they are modelled
    as [list N].  The built-ins the code calls ([String.prototype.split],
    [trim], [includes], [replace], [RegExp], [Set]) are modelled by the
    fragment of their ECMAScript semantics that the code can reach.  A
    pattern is compiled by the engine when it is first run, and the engine
    may then refuse it: [RegExp.test] takes the engine as a parameter and
    what it throws goes through [isAllowed] and the origin callback. *)

From Stdlib Require Import List PeanoNat NArith Bool Ascii String DecimalString Lia.
Import ListNotations.

Set Warnings "-register-all".

Local Open Scope N_scope.

(* ================================================================== *)
(** ** JavaScript values used by the code *)

Module JS.

Definition code_unit := N.
Definition jsstring := list code_unit.

(** String literals of the source, as code units. *)
Definition js (s : string) : jsstring :=
  map N_of_ascii (list_ascii_of_string s).

Fixpoint str_eqb (a b : jsstring) : bool :=
  match a, b with
  | [], [] => true
  | x :: a', y :: b' => N.eqb x y && str_eqb a' b'
  | _, _ => false
  end.

Definition is_empty (s : jsstring) : bool :=
  match s with [] => true | _ :: _ => false end.

(** [ToBoolean] on a string: only the empty string is falsy. *)
Definition truthy_string (s : jsstring) : bool := negb (is_empty s).

(** [ToBoolean] on [string | undefined]. *)
Definition truthy (v : option jsstring) : bool :=
  match v with
  | None => false
  | Some s => truthy_string s
  end.

(** ECMAScript LineTerminator: LF, CR, LS, PS. *)
Definition isLineTerminator (c : code_unit) : bool :=
  N.eqb c 10 || N.eqb c 13 || N.eqb c 8232 || N.eqb c 8233.

(** ECMAScript WhiteSpace: TAB, VT, FF, SP, NBSP, ZWNBSP and category Zs. *)
Definition isWhiteSpace (c : code_unit) : bool :=
  N.eqb c 9 || N.eqb c 11 || N.eqb c 12 || N.eqb c 32 || N.eqb c 160
  || N.eqb c 5760 || (N.leb 8192 c && N.leb c 8202)
  || N.eqb c 8239 || N.eqb c 8287 || N.eqb c 12288 || N.eqb c 65279.

(** The code units [String.prototype.trim] strips. *)
Definition isTrimmed (c : code_unit) : bool :=
  isWhiteSpace c || isLineTerminator c.

Fixpoint trimStart (s : jsstring) : jsstring :=
  match s with
  | [] => []
  | c :: s' => if isTrimmed c then trimStart s' else s
  end.

Definition trimEnd (s : jsstring) : jsstring := rev (trimStart (rev s)).

Definition trim (s : jsstring) : jsstring := trimEnd (trimStart s).

(** [s.split(sep)] for a one-code-unit separator. *)
Fixpoint split (sep : code_unit) (s : jsstring) : list jsstring :=
  match s with
  | [] => [[]]
  | c :: s' =>
      if N.eqb c sep then [] :: split sep s'
      else match split sep s' with
           | piece :: pieces => (c :: piece) :: pieces
           | [] => [[c]]
           end
  end.

(** [s.includes(c)] for a one-code-unit needle. *)
Definition includes (c : code_unit) (s : jsstring) : bool :=
  existsb (N.eqb c) s.

(** A [Set] of strings: its elements in insertion order, without repeats. *)
Definition StringSet := list jsstring.

Definition Set_has (x : jsstring) (s : StringSet) : bool :=
  existsb (str_eqb x) s.

Definition Set_add (x : jsstring) (s : StringSet) : StringSet :=
  if Set_has x s then s else s ++ [x].

(** Completion of a piece of JavaScript: a value, or a thrown [Error]
    carrying its message. *)
Inductive completion (A : Type) : Type :=
| Normal (a : A)
| Throw (message : jsstring).

Arguments Normal {A} a.
Arguments Throw {A} message.

Definition bind {A B} (c : completion A) (k : A -> completion B)
  : completion B :=
  match c with
  | Normal a => k a
  | Throw m => Throw m
  end.

(** [ToString] of a non-negative integer Number. *)
Definition number_to_string (n : N) : jsstring :=
  js (NilZero.string_of_uint (N.to_uint n)).

Definition comma : code_unit := 44.
Definition star : code_unit := 42.
Definition backslash : code_unit := 92.
Definition dot : code_unit := 46.
Definition caret : code_unit := 94.
Definition dollar : code_unit := 36.

End JS.

Import JS.

Declare Scope completion_scope.
Delimit Scope completion_scope with completion.
Notation "x <- c ;; k" := (JS.bind c (fun x => k))
  (at level 61, c at next level, right associativity) : completion_scope.
Local Open Scope completion_scope.

(* ================================================================== *)
(** ** The fragment of [RegExp] the origin policy builds *)

Module RegExp.

(** SyntaxCharacter of the ECMAScript pattern grammar:
    [^ $ \ . * + ? ( ) [ ] { } |]. *)
Definition isSyntaxCharacter (c : code_unit) : bool :=
  existsb (N.eqb c) (js "^$\.*+?()[]{}|").

Inductive atom : Type :=
| Char (c : code_unit)      (* a pattern character or an identity escape *)
| AnyChar.                  (* [.] without the [s] flag *)

Inductive term : Type :=
| AssertStart               (* [^] without the [m] flag *)
| AssertEnd                 (* [$] without the [m] flag *)
| Atom (a : atom)
| Star (a : atom).          (* greedy [a*] *)

Definition regexp := list term.

Definition cons_term (t : term) (r : completion regexp) : completion regexp :=
  ts <- r ;; Normal (t :: ts).

Definition SyntaxError : jsstring := js "Invalid regular expression".

(** [new RegExp(source)] with no flags.  Patterns outside the fragment
    (groups, classes, alternation, other quantifiers and escapes) are
    answered with [Throw]: the model never accepts more than the engine. *)
Fixpoint compile (source : jsstring) : completion regexp :=
  match source with
  | [] => Normal []
  | c :: rest =>
      if N.eqb c caret then cons_term AssertStart (compile rest)
      else if N.eqb c dollar then cons_term AssertEnd (compile rest)
      else if N.eqb c backslash then
        match rest with
        | [] => Throw SyntaxError
        | d :: rest' =>
            if isSyntaxCharacter d then
              match rest' with
              | q :: rest'' =>
                  if N.eqb q star then cons_term (Star (Char d)) (compile rest'')
                  else cons_term (Atom (Char d)) (compile rest')
              | [] => Normal [Atom (Char d)]
              end
            else Throw SyntaxError
        end
      else if N.eqb c dot then
        match rest with
        | q :: rest' =>
            if N.eqb q star then cons_term (Star AnyChar) (compile rest')
            else cons_term (Atom AnyChar) (compile rest)
        | [] => Normal [Atom AnyChar]
        end
      else if isSyntaxCharacter c then Throw SyntaxError
      else
        match rest with
        | q :: rest' =>
            if N.eqb q star then cons_term (Star (Char c)) (compile rest')
            else cons_term (Atom (Char c)) (compile rest)
        | [] => Normal [Atom (Char c)]
        end
  end.

Definition atom_matches (a : atom) (c : code_unit) : bool :=
  match a with
  | Char x => N.eqb x c
  | AnyChar => negb (isLineTerminator c)
  end.

(** Backtracking matcher: does [ts] match a prefix of [s]?  [at_start]
    tells whether [s] begins at index 0 of the subject string. *)
Fixpoint matches (ts : regexp) : bool -> jsstring -> bool :=
  match ts with
  | [] => fun _ _ => true
  | AssertStart :: ts' => fun at_start s => at_start && matches ts' at_start s
  | AssertEnd :: ts' => fun at_start s => is_empty s && matches ts' at_start s
  | Atom a :: ts' => fun _ s =>
      match s with
      | c :: s' => atom_matches a c && matches ts' false s'
      | [] => false
      end
  | Star a :: ts' =>
      fix star_loop (at_start : bool) (s : jsstring) : bool :=
        match s with
        | c :: s' => (atom_matches a c && star_loop false s')
                     || matches ts' at_start s
        | [] => matches ts' at_start s
        end
  end.

(** The search loop of [RegExpBuiltinExec]: try every start index. *)
Fixpoint search (re : regexp) (at_start : bool) (s : jsstring) : bool :=
  matches re at_start s
  || match s with
     | _ :: s' => search re false s'
     | [] => false
     end.

(** Whether [re] has a match in [s], by the matching rules alone. *)
Definition accepts (re : regexp) (s : jsstring) : bool := search re true s.

(** The engine under the pattern.  [new RegExp] only parses; the pattern is
    compiled when it is first run, and an engine may then refuse it (size
    limits, stack) by throwing.  [Some message] is the error thrown when
    [re] is run on the subject, [None] says the engine runs it.  Which
    patterns an engine refuses is the engine's own business. *)
Definition Engine : Type := regexp -> jsstring -> option jsstring.

(** [re.test(s)] for a regexp without the [g] and [y] flags: the engine's
    error when it refuses the pattern, else whether there is a match. *)
Definition test (engine : Engine) (re : regexp) (s : jsstring)
  : completion bool :=
  match engine re s with
  | Some message => Throw message
  | None => Normal (accepts re s)
  end.

(** The longest run of consecutive one-character terms of a pattern,
    [run] counting the terms seen since the last loop. *)
Fixpoint longest_text (ts : regexp) (run : N) : N :=
  match ts with
  | [] => run
  | Atom _ :: ts' => longest_text ts' (N.succ run)
  | Star _ :: ts' => N.max run (longest_text ts' 0)
  | AssertStart :: ts' => longest_text ts' run
  | AssertEnd :: ts' => longest_text ts' run
  end.

Definition too_large : jsstring := js "Regular expression too large".

(** An engine whose only limit is V8's bound on a text run: a pattern
    with a run of more than 32767 code units is refused, on every subject,
    with the reason [too_large] (the message is kept to its reason).  It
    stands for V8 at the concrete inputs below, which lie on either side of
    that bound; the general statements hold for every engine. *)
Definition v8_text_limit : Engine :=
  fun re _ =>
    if N.ltb 32767 (longest_text re 0) then Some too_large else None.

End RegExp.

(* ================================================================== *)
(** ** backend/src/cors.js *)

Module Cors.

(** The character class of [/[.*+?^${}()|[\]\\]/g]. *)
Definition escape_class (c : code_unit) : bool :=
  existsb (N.eqb c) (js ".*+?^${}()|[]\").

(** [value.replace(/[.*+?^${}()|[\]\\]/g, "\\$&")] *)
Definition escapeRegExp (value : jsstring) : jsstring :=
  flat_map (fun c => if escape_class c then [backslash; c] else [c]) value.

(** [s.replace(/\\\*/g, ".*")]: every backslash directly followed by a
    star, scanning left to right, becomes [.*]. *)
Fixpoint replace_escaped_star (s : jsstring) : jsstring :=
  match s with
  | [] => []
  | a :: t =>
      match t with
      | b :: t' =>
          if N.eqb a backslash && N.eqb b star
          then dot :: star :: replace_escaped_star t'
          else a :: replace_escaped_star t
      | [] => [a]
      end
  end.

Definition toWildcardRegExp (pattern : jsstring) : completion RegExp.regexp :=
  let escaped := replace_escaped_star (escapeRegExp pattern) in
  RegExp.compile ([caret] ++ escaped ++ [dollar]).

Record AllowedOrigins : Type := {
  exact : StringSet;
  wildcards : list RegExp.regexp
}.

(** The [for (const token of tokens)] loop. *)
Fixpoint classify (tokens : list jsstring) (acc : AllowedOrigins)
  : completion AllowedOrigins :=
  match tokens with
  | [] => Normal acc
  | token :: rest =>
      if includes star token then
        re <- toWildcardRegExp token ;;
        classify rest {| exact := exact acc;
                         wildcards := wildcards acc ++ [re] |}
      else
        classify rest {| exact := Set_add token (exact acc);
                         wildcards := wildcards acc |}
  end.

Definition tokenize (raw : jsstring) : list jsstring :=
  filter truthy_string (map trim (split comma raw)).

Definition parseAllowedOrigins (raw : jsstring) : completion AllowedOrigins :=
  classify (tokenize raw) {| exact := []; wildcards := [] |}.

(** [wildcards.some((re) => re.test(origin))]: the patterns are run in
    order, up to the first match; an error thrown by [test] ends the loop
    and leaves it. *)
Fixpoint some_test (engine : RegExp.Engine) (res : list RegExp.regexp)
  (o : jsstring) : completion bool :=
  match res with
  | [] => Normal false
  | re :: rest =>
      hit <- RegExp.test engine re o ;;
      if hit then Normal true else some_test engine rest o
  end.

Definition isAllowed (engine : RegExp.Engine) (allowed : AllowedOrigins)
  (origin : option jsstring) : completion bool :=
  match origin with
  | None => Normal true
  | Some o =>
      if negb (truthy_string o) then Normal true
      else if Set_has o (exact allowed) then Normal true
      else some_test engine (wildcards allowed) o
  end.

(** The [origin] option handed to the [cors] package: the string ["*"], or
    the callback, which closes over [allowed]. *)
Inductive OriginOption : Type :=
| OriginStar
| OriginCallback (allowed : AllowedOrigins).

Record CorsOptions : Type := {
  origin : OriginOption;
  methods : list jsstring;
  allowedHeaders : list jsstring;
  maxAge : N;
  optionsSuccessStatus : N
}.

Definition with_origin (o : OriginOption) : CorsOptions :=
  {| origin := o;
     methods := [js "GET"; js "POST"; js "OPTIONS"];
     allowedHeaders := [js "Content-Type"];
     maxAge := 86400;
     optionsSuccessStatus := 204 |}.

(** [origin(origin, cb) { return cb(null, isAllowed(origin)); }]: there
    is no [try] around [isAllowed], so what it throws leaves the callback
    before [cb] is called. *)
Definition origin_callback {R} (engine : RegExp.Engine)
  (allowed : AllowedOrigins) (origin : option jsstring)
  (cb : option jsstring -> bool -> R) : completion R :=
  verdict <- isAllowed engine allowed origin ;;
  Normal (cb None verdict).

(** [createCorsMiddleware], with [raw] standing for
    [process.env.CORS_ORIGIN]. *)
Definition createCorsMiddleware (raw : option jsstring)
  : completion CorsOptions :=
  match raw with
  | None => Normal (with_origin OriginStar)
  | Some r =>
      if negb (truthy_string r) || str_eqb r (js "*")
      then Normal (with_origin OriginStar)
      else
        allowed <- parseAllowedOrigins r ;;
        Normal (with_origin (OriginCallback allowed))
  end.

(** What the [cors] package does with the [origin] option: ["*"] grants
    every request; a callback is called with the request's [Origin] header
    and a continuation receiving [(err, allow)]; an error is not a grant,
    and what the callback throws goes through the package unhandled. *)
Definition decision (engine : RegExp.Engine) (opts : CorsOptions)
  (request_origin : option jsstring) : completion bool :=
  match origin opts with
  | OriginStar => Normal true
  | OriginCallback allowed =>
      origin_callback engine allowed request_origin
        (fun err allow => match err with
                          | None => allow
                          | Some _ => false
                          end)
  end.

End Cors.

(* ================================================================== *)
(** ** backend/src/cloudinary.js *)

Module Cloudinary.

(** [process.env]: a variable is unset ([None]) or holds a string. *)
Definition Env := jsstring -> option jsstring.

Record Credentials : Type := {
  cloud_name : jsstring;
  api_key : jsstring;
  api_secret : jsstring
}.

(** The module's mutable state: the [configured] flag and the
    configuration held by the SDK object ([None] until [config] is called). *)
Record State : Type := {
  configured : bool;
  sdk_config : option Credentials
}.

(** State at module load: [let configured = false]; what the SDK holds by
    then is its own doing ([preset]: nothing, or what it draws from
    [CLOUDINARY_URL]). *)
Definition loaded (preset : option Credentials) : State :=
  {| configured := false; sdk_config := preset |}.

(** Code that reads the environment, may update the state and may throw. *)
Definition M (A : Type) : Type := Env -> State -> completion A * State.

Definition ret {A} (a : A) : M A := fun _ st => (Normal a, st).

Definition throw {A} (message : jsstring) : M A :=
  fun _ st => (Throw message, st).

Definition mbind {A B} (m : M A) (k : A -> M B) : M B :=
  fun env st =>
    match m env st with
    | (Normal a, st') => k a env st'
    | (Throw e, st') => (Throw e, st')
    end.

Declare Scope cloudinary_scope.
Notation "x <- c ;; k" := (mbind c (fun x => k))
  (at level 61, c at next level, right associativity) : cloudinary_scope.
Notation "c ;; k" := (mbind c (fun _ => k))
  (at level 61, right associativity) : cloudinary_scope.
Local Open Scope cloudinary_scope.

Definition read_env (name : jsstring) : M (option jsstring) :=
  fun env st => (Normal (env name), st).

Definition get_configured : M bool :=
  fun _ st => (Normal (configured st), st).

Definition set_configured (b : bool) : M unit :=
  fun _ st => (Normal tt, {| configured := b; sdk_config := sdk_config st |}).

(** [cloudinary.config({cloud_name, api_key, api_secret})]: the SDK keeps
    the three values. *)
Definition cloudinary_config (c : Credentials) : M unit :=
  fun _ st => (Normal tt, {| configured := configured st;
                             sdk_config := Some c |}).

Definition missing_message (name : jsstring) : jsstring :=
  js "Missing env var: " ++ name.

Definition assertEnv (name : jsstring) : M jsstring :=
  v <- read_env name ;;
  match v with
  | Some value => if truthy_string value then ret value
                  else throw (missing_message name)
  | None => throw (missing_message name)
  end.

Definition CLOUDINARY_CLOUD_NAME : jsstring := js "CLOUDINARY_CLOUD_NAME".
Definition CLOUDINARY_API_KEY : jsstring := js "CLOUDINARY_API_KEY".
Definition CLOUDINARY_API_SECRET : jsstring := js "CLOUDINARY_API_SECRET".

Definition ensureConfigured : M unit :=
  done <- get_configured ;;
  if done then ret tt
  else
    cn <- assertEnv CLOUDINARY_CLOUD_NAME ;;
    key <- assertEnv CLOUDINARY_API_KEY ;;
    secret <- assertEnv CLOUDINARY_API_SECRET ;;
    cloudinary_config {| cloud_name := cn; api_key := key;
                         api_secret := secret |} ;;
    set_configured true.

(** The three variables, in the order the object literal reads them. *)
Definition required : list jsstring :=
  [CLOUDINARY_CLOUD_NAME; CLOUDINARY_API_KEY; CLOUDINARY_API_SECRET].

End Cloudinary.

(* ================================================================== *)
(** ** frontend/src/app/page.tsx *)

Module Page.

Section Json.

(** The Number type and its [ToBoolean]; [extractErrorMessage] never looks
    inside a number. *)
Variable number : Type.
Variable number_truthy : number -> bool.

(** What [response.json()] can produce ([null] when parsing fails). *)
Inductive json : Type :=
| JNull
| JBool (b : bool)
| JNumber (x : number)
| JString (s : jsstring)
| JArray (items : list json)
| JObject (props : list (jsstring * json)).

(** A JavaScript value: [None] is [undefined]. *)
Definition value := option json.

Inductive type_tag : Type :=
| TUndefined | TObject | TBoolean | TNumber | TString.

Definition typeof (v : value) : type_tag :=
  match v with
  | None => TUndefined
  | Some JNull => TObject
  | Some (JBool _) => TBoolean
  | Some (JNumber _) => TNumber
  | Some (JString _) => TString
  | Some (JArray _) => TObject
  | Some (JObject _) => TObject
  end.

Definition is_object_tag (t : type_tag) : bool :=
  match t with TObject => true | _ => false end.

Definition is_string_tag (t : type_tag) : bool :=
  match t with TString => true | _ => false end.

Definition truthy_value (v : value) : bool :=
  match v with
  | None => false
  | Some JNull => false
  | Some (JBool b) => b
  | Some (JNumber x) => number_truthy x
  | Some (JString s) => truthy_string s
  | Some (JArray _) => true
  | Some (JObject _) => true
  end.

Fixpoint lookup (key : jsstring) (props : list (jsstring * json)) : value :=
  match props with
  | [] => None
  | (k, v) :: rest => if str_eqb key k then Some v else lookup key rest
  end.

(** [v?.key] for the keys ["error"] and ["message"]: [undefined] on
    [undefined] and [null]; the property of an object; [undefined] on
    arrays and primitives, which have no property of either name. *)
Definition optional_get (v : value) (key : jsstring) : value :=
  match v with
  | Some (JObject props) => lookup key props
  | _ => None
  end.

(** The string behind a value whose [typeof] is ["string"]. *)
Definition string_value (v : value) : jsstring :=
  match v with
  | Some (JString s) => s
  | _ => []
  end.

Definition extractErrorMessage (data : json) (status : N) : jsstring :=
  let anyData := Some data in
  let generic := js "Erreur upload (" ++ number_to_string status ++ js ")" in
  if truthy_value anyData && is_object_tag (typeof anyData) then
    if is_string_tag (typeof (optional_get anyData (js "error")))
    then string_value (optional_get anyData (js "error"))
    else if is_string_tag
              (typeof (optional_get (optional_get anyData (js "error"))
                                    (js "message")))
    then string_value (optional_get (optional_get anyData (js "error"))
                                    (js "message"))
    else if is_string_tag (typeof (optional_get anyData (js "message")))
    then string_value (optional_get anyData (js "message"))
    else generic
  else generic.

End Json.

Arguments JNull {number}.
Arguments JBool {number} b.
Arguments JNumber {number} x.
Arguments JString {number} s.
Arguments JArray {number} items.
Arguments JObject {number} props.
Arguments lookup {number} key props.
Arguments optional_get {number} v key.
Arguments extractErrorMessage {number} number_truthy data status.

End Page.

(* ================================================================== *)
(** ** The specification's vocabulary *)

Module Spec.

(** A wildcard token read as the specification words it: every code unit
    other than the star stands for itself, every star stands for a run of
    code units drawn from [gap], and the whole subject is consumed. *)
Inductive wildcard_match (gap : code_unit -> bool)
  : jsstring -> jsstring -> Prop :=
| wm_end : wildcard_match gap [] []
| wm_literal c token s :
    N.eqb c star = false ->
    wildcard_match gap token s ->
    wildcard_match gap (c :: token) (c :: s)
| wm_star run token s :
    forallb gap run = true ->
    wildcard_match gap token s ->
    wildcard_match gap (star :: token) (run ++ s).


(** Any sequence free of line terminators. *)
Definition not_line_terminator (c : code_unit) : bool :=
  negb (isLineTerminator c).


(** The decision of the code: an empty [Origin] value counts as absent. *)
Definition allowed_by_design (allowed : Cors.AllowedOrigins)
  (origin : option jsstring) : Prop :=
  origin = None \/ origin = Some []
  \/ exists o, origin = Some o
       /\ (In o (Cors.exact allowed)
           \/ exists re, In re (Cors.wildcards allowed)
                       /\ RegExp.accepts re o = true).

(** The engine runs every pattern of the policy on the request's origin. *)
Definition engine_runs (engine : RegExp.Engine)
  (allowed : Cors.AllowedOrigins) (origin : option jsstring) : Prop :=
  forall o re, origin = Some o -> In re (Cors.wildcards allowed) ->
               engine re o = None.


(** The source text one code unit of a token contributes to the pattern
    after escaping and star replacement. *)
Definition escaped_unit (c : code_unit) : jsstring :=
  if N.eqb c star then [dot; star]
  else if Cors.escape_class c then [backslash; c]
  else [c].

(** The pattern term one code unit of a token stands for. *)
Definition term_of (c : code_unit) : RegExp.term :=
  if N.eqb c star then RegExp.Star RegExp.AnyChar
  else RegExp.Atom (RegExp.Char c).

(** The anchored pattern of a token. *)
Definition pattern_of (token : jsstring) : RegExp.regexp :=
  RegExp.AssertStart :: map term_of token ++ [RegExp.AssertEnd].

(** The engine runs the pattern of every starred token of a configuration
    on the origin [o]. *)
Definition engine_runs_tokens (engine : RegExp.Engine)
  (raw o : jsstring) : Prop :=
  forall token, In token (Cors.tokenize raw) ->
                includes star token = true ->
                engine (pattern_of token) o = None.

Definition no_star_head (s : jsstring) : Prop :=
  match s with
  | q :: _ => N.eqb q star = false
  | [] => True
  end.

(** The generic client message as the specification words it. *)
Definition generic_as_specified (status : N) : jsstring :=
  js "Upload failed (" ++ number_to_string status ++ js ")".

(** The generic client message of the code. *)
Definition generic_by_design (status : N) : jsstring :=
  js "Erreur upload (" ++ number_to_string status ++ js ")".

Section MessagePriority.

Context {number : Type}.

(** The top-level field [key] of a body, when the body is an object and
    the field holds a string. *)
Definition top_string (data : Page.json number) (key : jsstring)
  : option jsstring :=
  match data with
  | Page.JObject props =>
      match Page.lookup key props with
      | Some (Page.JString s) => Some s
      | _ => None
      end
  | _ => None
  end.

(** The field [inner] of the object held by the top-level field [outer],
    when it holds a string. *)
Definition nested_string (data : Page.json number) (outer inner : jsstring)
  : option jsstring :=
  match data with
  | Page.JObject props =>
      match Page.lookup outer props with
      | Some (Page.JObject fields) =>
          match Page.lookup inner fields with
          | Some (Page.JString s) => Some s
          | _ => None
          end
      | _ => None
      end
  | _ => None
  end.

(** The extraction as the specification words it: [error], else
    [error.message], else [message], else the generic text. *)
Definition message_by_priority (generic : N -> jsstring)
  (data : Page.json number) (status : N) : jsstring :=
  match top_string data (js "error") with
  | Some s => s
  | None =>
      match nested_string data (js "error") (js "message") with
      | Some s => s
      | None =>
          match top_string data (js "message") with
          | Some s => s
          | None => generic status
          end
      end
  end.

End MessagePriority.

(** The first required variable, in reading order, that [assertEnv]
    rejects. *)
Definition first_missing (env : Cloudinary.Env) : option jsstring :=
  find (fun name => negb (truthy (env name))) Cloudinary.required.

(** The error message as the specification words it: it names a required
    variable that is absent. *)
Definition names_an_absent_variable (env : Cloudinary.Env)
  (message : jsstring) : Prop :=
  exists name, In name Cloudinary.required
               /\ env name = None
               /\ message = Cloudinary.missing_message name.

(** Calling the configuration routine twice in a row. *)
Definition twice (m : Cloudinary.M unit) : Cloudinary.M unit :=
  Cloudinary.mbind m (fun _ => m).

(** Concrete inputs used below. *)
Definition sample_config : jsstring := js "https://a.com,https://*.b.com".
Definition sample_wildcard : jsstring := js "https://*.b.com".
Definition commas_only : jsstring := js ",,".
Definition blanks_and_comma : jsstring := js " , ".

Definition full_env : Cloudinary.Env :=
  fun name =>
    if str_eqb name Cloudinary.CLOUDINARY_CLOUD_NAME then Some (js "demo")
    else if str_eqb name Cloudinary.CLOUDINARY_API_KEY then Some (js "key")
    else if str_eqb name Cloudinary.CLOUDINARY_API_SECRET
    then Some (js "secret")
    else None.

Definition empty_env : Cloudinary.Env := fun _ => None.

(** An environment with the cloud name set to the empty string and the API
    key unset. *)
Definition env_empty_name_without_key : Cloudinary.Env :=
  fun name =>
    if str_eqb name Cloudinary.CLOUDINARY_CLOUD_NAME then Some []
    else if str_eqb name Cloudinary.CLOUDINARY_API_KEY then None
    else full_env name.

(** The module as loaded next to an SDK that holds nothing yet. *)
Definition fresh : Cloudinary.State := Cloudinary.loaded None.

(** A wildcard token with a text run of 32768 code units: a star followed
    by 32768 times the letter a. *)
Definition giant_run : jsstring := repeat 97 (N.to_nat 32768).
Definition giant_token : jsstring := star :: giant_run.
Definition ordinary_origin : jsstring := js "https://x.b.com".

(** An environment with the API key unset. *)
Definition env_without_key : Cloudinary.Env :=
  fun name =>
    if str_eqb name Cloudinary.CLOUDINARY_API_KEY then None
    else full_env name.

End Spec.

(* ================================================================== *)
(** ** [String.prototype.replace] with a pattern *)

Module Replace.

Import RegExp.

(** The backtracking matcher, returning what is left of the subject after
    the first match in priority order (a greedy star tries the longer run
    first). *)
Fixpoint match_rest (ts : regexp) : bool -> jsstring -> option jsstring :=
  match ts with
  | [] => fun _ s => Some s
  | AssertStart :: ts' => fun at_start s =>
      if at_start then match_rest ts' at_start s else None
  | AssertEnd :: ts' => fun at_start s =>
      if is_empty s then match_rest ts' at_start s else None
  | Atom a :: ts' => fun _ s =>
      match s with
      | c :: s' => if atom_matches a c then match_rest ts' false s' else None
      | [] => None
      end
  | Star a :: ts' =>
      fix star_loop (at_start : bool) (s : jsstring) : option jsstring :=
        match s with
        | c :: s' =>
            if atom_matches a c then
              match star_loop false s' with
              | Some r => Some r
              | None => match_rest ts' at_start s
              end
            else match_rest ts' at_start s
        | [] => match_rest ts' at_start s
        end
  end.

(** [RegExpBuiltinExec] without flags: the leftmost match, as the text
    before it and the text after it. *)
Fixpoint exec (re : regexp) (at_start : bool) (s : jsstring)
  : option (jsstring * jsstring) :=
  match match_rest re at_start s with
  | Some after => Some ([], after)
  | None =>
      match s with
      | c :: s' =>
          match exec re false s' with
          | Some (before, after) => Some (c :: before, after)
          | None => None
          end
      | [] => None
      end
  end.

(** [s.replace(re, replacement)] for a pattern without the [g] flag and a
    replacement text without [$]: the leftmost match is replaced, and a
    subject without a match is returned as it is. *)
Definition replace (re : regexp) (replacement s : jsstring) : jsstring :=
  match exec re true s with
  | Some (before, after) => before ++ replacement ++ after
  | None => s
  end.

End Replace.

(* ================================================================== *)
(** ** frontend/src/app/page.tsx: the page component *)

Module Home.

Import Page.

Definition slash : code_unit := 47.

(** The pattern [/\/+$/]: a slash, then greedily as many slashes as follow,
    then the end of the input. *)
Definition trailing_slashes : RegExp.regexp :=
  [RegExp.Atom (RegExp.Char slash); RegExp.Star (RegExp.Char slash);
   RegExp.AssertEnd].

(** [baseUrl.replace(/\/+$/, "")] *)
Definition normalizeBaseUrl (baseUrl : jsstring) : jsstring :=
  Replace.replace trailing_slashes [] baseUrl.

Definition default_base_url : jsstring := js "http://localhost:3001".

(** [normalizeBaseUrl(fromEnv || "http://localhost:3001")], with [fromEnv]
    standing for [process.env.NEXT_PUBLIC_API_BASE_URL]. *)
Definition apiBaseUrl (fromEnv : option jsstring) : jsstring :=
  normalizeBaseUrl
    (match fromEnv with
     | Some v => if truthy_string v then v else default_base_url
     | None => default_base_url
     end).

(** The template [`${apiBaseUrl}/upload`]. *)
Definition upload_url (fromEnv : option jsstring) : jsstring :=
  apiBaseUrl fromEnv ++ js "/upload".

(** [reader.onload]: [text.slice(0, 600)], where [text] is the reader's
    result when that is a string and the empty string otherwise. *)
Definition text_preview (reader_result : option jsstring) : jsstring :=
  let text := match reader_result with Some t => t | None => [] end in
  firstn 600 text.

(** [textPreview ? <pre> ... : null] *)
Definition preview_shown (textPreview : option jsstring) : bool :=
  truthy textPreview.

(** [textPreview.length >= 600], which appends the ellipsis line. *)
Definition ellipsis_shown (textPreview : jsstring) : bool :=
  Nat.leb 600 (List.length textPreview).

Record File : Type := {
  file_name : jsstring;
  file_type : jsstring;
  file_size : N
}.

Record UploadResponse : Type := {
  qrCodeUrl : jsstring;
  publicFileUrl : jsstring;
  downloadFileUrl : option jsstring;
  qrTargetUrl : option jsstring;
  originalFileName : option jsstring;
  mimeType : option jsstring
}.

(** A call of [toast.error] or [toast.success]. *)
Inductive toast : Type :=
| ToastError (title : jsstring) (description : option jsstring)
| ToastSuccess (title : jsstring) (description : option jsstring).

(** The component state [onSubmit] writes, and the toasts raised so far
    (latest first). *)
Record UiState : Type := {
  file : option File;
  isLoading : bool;
  error : option jsstring;
  result : option UploadResponse;
  toasts : list toast
}.

Definition setError (e : option jsstring) (st : UiState) : UiState :=
  {| file := file st; isLoading := isLoading st; error := e;
     result := result st; toasts := toasts st |}.

Definition setResult (r : option UploadResponse) (st : UiState) : UiState :=
  {| file := file st; isLoading := isLoading st; error := error st;
     result := r; toasts := toasts st |}.

Definition setIsLoading (b : bool) (st : UiState) : UiState :=
  {| file := file st; isLoading := b; error := error st;
     result := result st; toasts := toasts st |}.

Definition raise_toast (t : toast) (st : UiState) : UiState :=
  {| file := file st; isLoading := isLoading st; error := error st;
     result := result st; toasts := t :: toasts st |}.

(** What a rejected [fetch] throws: an [Error] instance with its message,
    or some other value. *)
Inductive thrown : Type :=
| ErrorInstance (message : jsstring)
| OtherValue.

(** [response.ok] of the Fetch standard: a status from 200 to 299. *)
Definition response_ok (status : N) : bool :=
  N.leb 200 status && N.leb status 299.

Definition msg_pick_file : jsstring :=
  js "Choisis un fichier (image, PDF ou TXT).".
Definition msg_unexpected : jsstring :=
  js "R" ++ [233] ++ js "ponse inattendue du serveur.".
Definition title_unexpected : jsstring :=
  js "R" ++ [233] ++ js "ponse inattendue".
Definition title_upload_failed : jsstring :=
  js "Upload " ++ [233] ++ js "chou" ++ [233].
Definition title_upload_done : jsstring := js "Upload termin" ++ [233].
Definition msg_upload_done : jsstring :=
  js "Lien public et QR code g" ++ [233] ++ js "n" ++ [233] ++ js "r"
  ++ [233] ++ js "s.".
Definition title_network : jsstring := js "Erreur r" ++ [233] ++ js "seau".
Definition msg_network : jsstring := js "Erreur r" ++ [233] ++ js "seau.".

Section Submit.

Variable number : Type.
Variable number_truthy : number -> bool.

(** The outcome of [fetch] and of [response.json()]: the request is
    rejected, or a response arrives with its status and the parsed body
    ([None] when parsing fails, which the code turns into [null]). *)
Inductive fetch_outcome : Type :=
| Rejected (err : thrown)
| Responded (status : N) (body : option (json number)).

(** [typeof anyData.key === "string" ? anyData.key : undefined] *)
Definition string_field (data : json number) (key : jsstring)
  : option jsstring :=
  if is_string_tag (typeof number (optional_get (Some data) key))
  then Some (string_value number (optional_get (Some data) key))
  else None.

(** The part of [onSubmit] that follows a response. *)
Definition on_response (status : N) (data : json number) (st : UiState)
  : UiState :=
  if negb (response_ok status) then
    let message := extractErrorMessage number_truthy data status in
    raise_toast (ToastError title_upload_failed (Some message))
      (setError (Some message) st)
  else if negb (truthy_value number number_truthy (Some data))
          || negb (is_object_tag (typeof number (Some data))) then
    raise_toast (ToastError title_unexpected None)
      (setError (Some msg_unexpected) st)
  else if negb (is_string_tag
                  (typeof number (optional_get (Some data) (js "publicFileUrl"))))
          || negb (is_string_tag
                     (typeof number (optional_get (Some data) (js "qrCodeUrl"))))
  then
    raise_toast
      (ToastError title_unexpected
         (Some (js "Champs manquants: publicFileUrl/qrCodeUrl")))
      (setError (Some msg_unexpected) st)
  else
    let nextResult :=
      {| publicFileUrl :=
           string_value number (optional_get (Some data) (js "publicFileUrl"));
         qrCodeUrl :=
           string_value number (optional_get (Some data) (js "qrCodeUrl"));
         downloadFileUrl := string_field data (js "downloadFileUrl");
         qrTargetUrl := string_field data (js "qrTargetUrl");
         originalFileName := string_field data (js "originalFileName");
         mimeType := string_field data (js "mimeType") |} in
    raise_toast (ToastSuccess title_upload_done (Some msg_upload_done))
      (setResult (Some nextResult) st).

(** [onSubmit], given what the network does. *)
Definition onSubmit (outcome : fetch_outcome) (st : UiState) : UiState :=
  let st := setResult None (setError None st) in
  match file st with
  | None =>
      raise_toast (ToastError (js "Fichier manquant") (Some msg_pick_file))
        (setError (Some msg_pick_file) st)
  | Some _ =>
      let st := setIsLoading true st in
      let st :=
        match outcome with
        | Responded status body =>
            let data := match body with Some j => j | None => JNull end in
            on_response status data st
        | Rejected err =>
            let message := match err with
                           | ErrorInstance m => m
                           | OtherValue => msg_network
                           end in
            raise_toast (ToastError title_network (Some message))
              (setError (Some message) st)
        end in
      setIsLoading false st
  end.

End Submit.

Arguments Rejected {number} err.
Arguments Responded {number} status body.
Arguments string_field {number} data key.
Arguments on_response {number} number_truthy status data st.
Arguments onSubmit {number} number_truthy outcome st.

End Home.

(* ================================================================== *)
(** ** Scenarios *)

Module Scenario.

(** The state after a series of calls of [ensureConfigured], one per
    environment of the list, thrown errors being caught by the callers. *)
Definition after_calls (envs : list Cloudinary.Env) (st : Cloudinary.State)
  : Cloudinary.State :=
  fold_left (fun st env => snd (Cloudinary.ensureConfigured env st)) envs st.

(** The pattern [new RegExp(escapeRegExp(value))] stands for. *)
Definition literal_pattern (value : jsstring) : RegExp.regexp :=
  map (fun c => RegExp.Atom (RegExp.Char c)) value.

Definition all_slashes (s : jsstring) : bool :=
  forallb (N.eqb Home.slash) s.

Definition ends_with_slash (s : jsstring) : Prop :=
  exists front, s = front ++ [Home.slash].

Definition sample_file : Home.File :=
  {| Home.file_name := js "a.txt"; Home.file_type := js "text/plain";
     Home.file_size := 3 |}.

Definition idle_with_file : Home.UiState :=
  {| Home.file := Some sample_file; Home.isLoading := false;
     Home.error := None; Home.result := None; Home.toasts := [] |}.

Definition good_body : Page.json N :=
  Page.JObject [(js "publicFileUrl", Page.JString (js "https://h/f"));
                (js "qrCodeUrl", Page.JString (js "https://h/q.png"))].

End Scenario.

Import Cors Spec.

(* ================================================================== *)
(** ** Strings and sets *)

Section StringFacts.

Lemma str_eqb_eq (a b : jsstring) : str_eqb a b = true <-> a = b.
Proof.
  revert b; induction a as [|x a IH]; intros [|y b]; simpl;
    try (split; [discriminate | discriminate]); try tauto.
  rewrite andb_true_iff, N.eqb_eq, IH.
  split; [intros [-> ->]; reflexivity | intros E; inversion E; auto].
Qed.

Lemma str_eqb_refl (a : jsstring) : str_eqb a a = true.
Proof. apply str_eqb_eq; reflexivity. Qed.

Lemma Set_has_In (x : jsstring) (s : StringSet) :
  Set_has x s = true <-> In x s.
Proof.
  unfold Set_has. rewrite existsb_exists. split.
  - intros (y & Hy & E). apply str_eqb_eq in E. subst; assumption.
  - intros H. exists x. split; [assumption | apply str_eqb_refl].
Qed.

Lemma Set_add_In (x y : jsstring) (s : StringSet) :
  In x (Set_add y s) <-> x = y \/ In x s.
Proof.
  unfold Set_add. destruct (Set_has y s) eqn:E.
  - apply Set_has_In in E. split; [auto | intros [-> | H]; assumption].
  - rewrite in_app_iff. simpl. split.
    + intros [H | [H | []]]; auto.
    + intros [-> | H]; auto.
Qed.

Lemma includes_In (c : code_unit) (s : jsstring) :
  includes c s = true <-> In c s.
Proof.
  unfold includes. rewrite existsb_exists. split.
  - intros (y & Hy & E). apply N.eqb_eq in E. subst; assumption.
  - intros H. exists c. split; [assumption | apply N.eqb_refl].
Qed.



Lemma split_no_sep (sep : code_unit) (s piece : jsstring) :
  In piece (split sep s) -> ~ In sep piece.
Proof.
  revert piece. induction s as [|c s IH]; intros piece; simpl.
  - intros [<- | []]. intros [].
  - destruct (N.eqb c sep) eqn:E.
    + intros [<- | H]; [intros [] | auto].
    + destruct (split sep s) as [|p ps].
      * intros [<- | []]. intros [-> | []]. rewrite N.eqb_refl in E.
        discriminate.
      * intros [<- | H].
        -- intros [-> | H]; [rewrite N.eqb_refl in E; discriminate|].
           revert H. apply IH. left; reflexivity.
        -- apply IH. right; assumption.
Qed.

(** [trimStart] removes exactly a run of trimmed code units at the front. *)
Lemma trimStart_spec (s : jsstring) :
  exists ws, s = ws ++ trimStart s
             /\ forallb isTrimmed ws = true
             /\ match trimStart s with
                | c :: _ => isTrimmed c = false
                | [] => True
                end.
Proof.
  induction s as [|c s (ws & E & Hws & Hhd)]; simpl.
  - exists []. auto.
  - destruct (isTrimmed c) eqn:Ec.
    + exists (c :: ws). simpl. rewrite Ec, Hws. rewrite <- E. auto.
    + exists []. simpl. auto.
Qed.

Lemma trimStart_all (s : jsstring) :
  trimStart s = [] <-> forallb isTrimmed s = true.
Proof.
  induction s as [|c s IH]; simpl; [tauto|].
  destruct (isTrimmed c); simpl; [assumption|].
  split; discriminate.
Qed.

Lemma trimStart_head (s : jsstring) :
  match trimStart s with
  | c :: _ => isTrimmed c = false
  | [] => True
  end.
Proof.
  induction s as [|c s IH]; simpl; [exact I|].
  destruct (isTrimmed c) eqn:E; [exact IH | exact E].
Qed.

(** [trim] leaves nothing exactly when every code unit is white space or a
    line terminator. *)
Lemma trim_blank (s : jsstring) :
  trim s = [] <-> forallb isTrimmed s = true.
Proof.
  unfold trim, trimEnd. rewrite <- trimStart_all. split.
  - intros H. apply (f_equal (@rev code_unit)) in H.
    rewrite rev_involutive in H. simpl in H.
    apply trimStart_all in H. rewrite forallb_forall in H.
    pose proof (trimStart_head s) as Hhd.
    destruct (trimStart s) as [|c t]; [reflexivity|].
    rewrite (H c) in Hhd; [discriminate|].
    apply in_rev. rewrite rev_involutive. left; reflexivity.
  - intros ->. reflexivity.
Qed.

End StringFacts.

(* ================================================================== *)
(** ** From a token to its pattern *)

Section Compilation.

Import RegExp.

Lemma escape_class_syntax (c : code_unit) :
  escape_class c = isSyntaxCharacter c.
Proof.
  apply eq_true_iff_eq. unfold escape_class, isSyntaxCharacter.
  rewrite !existsb_exists. split; intros (x & Hx & E);
    apply N.eqb_eq in E; subst x; exists c; (split; [|apply N.eqb_refl]);
    vm_compute in Hx |- *; tauto.
Qed.

Lemma escape_class_false (c : code_unit) :
  escape_class c = false ->
  N.eqb c caret = false /\ N.eqb c dollar = false
  /\ N.eqb c backslash = false /\ N.eqb c dot = false
  /\ N.eqb c star = false.
Proof.
  intros H. repeat split; apply not_true_is_false; intros E;
    apply N.eqb_eq in E; subst c; discriminate H.
Qed.

Lemma escapeRegExp_head (token : jsstring) : no_star_head (escapeRegExp token).
Proof.
  destruct token as [|c token]; simpl; [exact I|].
  destruct (escape_class c) eqn:E; simpl; [reflexivity|].
  apply escape_class_false in E. tauto.
Qed.

Lemma replace_pair (a b : code_unit) (t : jsstring) :
  replace_escaped_star (a :: b :: t)
  = if N.eqb a backslash && N.eqb b star
    then dot :: star :: replace_escaped_star t
    else a :: replace_escaped_star (b :: t).
Proof. reflexivity. Qed.

Lemma replace_step (a : code_unit) (t : jsstring) :
  N.eqb a star = false -> no_star_head t ->
  replace_escaped_star (a :: t) = a :: replace_escaped_star t.
Proof.
  intros Ha Ht. destruct t as [|b t]; [reflexivity|].
  simpl in Ht. cbn [replace_escaped_star]. rewrite Ht, andb_false_r.
  reflexivity.
Qed.

Lemma escapeRegExp_cons (c : code_unit) (token : jsstring) :
  escapeRegExp (c :: token)
  = (if escape_class c then [backslash; c] else [c]) ++ escapeRegExp token.
Proof. reflexivity. Qed.

(** After [escapeRegExp], the star replacement rewrites exactly the
    escaped stars. *)
Lemma replace_escapeRegExp (token : jsstring) :
  replace_escaped_star (escapeRegExp token) = flat_map escaped_unit token.
Proof.
  induction token as [|c token IH]; [reflexivity|].
  pose proof (escapeRegExp_head token) as Hhd.
  rewrite escapeRegExp_cons. cbn [flat_map]. rewrite <- IH.
  set (E := escapeRegExp token) in *. clearbody E. clear IH.
  unfold escaped_unit.
  destruct (N.eqb c star) eqn:Es.
  - apply N.eqb_eq in Es. subst c. reflexivity.
  - destruct (escape_class c) eqn:Ec; cbn [app].
    + rewrite replace_pair, Es, andb_false_r.
      rewrite replace_step; [reflexivity | assumption | assumption].
    + apply escape_class_false in Ec.
      rewrite replace_step; [reflexivity | tauto | assumption].
Qed.

Lemma escaped_units_head (token rest : jsstring) :
  no_star_head rest -> no_star_head (flat_map escaped_unit token ++ rest).
Proof.
  intros H. destruct token as [|c token]; [assumption|].
  cbn [flat_map]. unfold escaped_unit at 1.
  destruct (N.eqb c star) eqn:Es; [reflexivity|].
  destruct (escape_class c); simpl; [reflexivity | assumption].
Qed.

Lemma compile_quantifier (a : atom) (rest : jsstring) :
  no_star_head rest ->
  match rest with
  | q :: rest' =>
      if N.eqb q star then cons_term (Star a) (compile rest')
      else cons_term (Atom a) (compile rest)
  | [] => Normal [Atom a]
  end = cons_term (Atom a) (compile rest).
Proof.
  destruct rest as [|q rest]; simpl; [reflexivity|].
  intros ->. reflexivity.
Qed.

(** [new RegExp] accepts every escaped token and reads it back unit by
    unit. *)
Lemma compile_escaped_units (token rest : jsstring) :
  no_star_head rest ->
  compile (flat_map escaped_unit token ++ rest)
  = (ts <- compile rest ;; Normal (map term_of token ++ ts)).
Proof.
  intros Hrest. induction token as [|c token IH].
  - simpl. destruct (compile rest); reflexivity.
  - pose proof (escaped_units_head token rest Hrest) as Hhd.
    cbn [flat_map map]. unfold escaped_unit at 1, term_of at 1.
    destruct (N.eqb c star) eqn:Es.
    + cbn [app]. cbn [compile].
      change (N.eqb dot caret) with false.
      change (N.eqb dot dollar) with false.
      change (N.eqb dot backslash) with false.
      change (N.eqb dot dot) with true.
      change (N.eqb star star) with true. cbv iota.
      rewrite IH. destruct (compile rest); reflexivity.
    + destruct (escape_class c) eqn:Ec; cbn [app].
      * cbn [compile].
        change (N.eqb backslash caret) with false.
        change (N.eqb backslash dollar) with false.
        change (N.eqb backslash backslash) with true. cbv iota.
        rewrite <- escape_class_syntax, Ec.
        rewrite (compile_quantifier _ _ Hhd), IH.
        destruct (compile rest); reflexivity.
      * pose proof (escape_class_false _ Ec) as (H1 & H2 & H3 & H4 & _).
        cbn [compile]. rewrite H1, H2, H3, H4.
        rewrite <- escape_class_syntax, Ec.
        rewrite (compile_quantifier _ _ Hhd), IH.
        destruct (compile rest); reflexivity.
Qed.

(** [toWildcardRegExp] never throws, and yields the anchored pattern. *)
Lemma toWildcardRegExp_pattern (token : jsstring) :
  toWildcardRegExp token = Normal (pattern_of token).
Proof.
  unfold toWildcardRegExp. rewrite replace_escapeRegExp.
  cbn [app compile]. change (N.eqb caret caret) with true. cbv iota.
  rewrite compile_escaped_units by reflexivity. reflexivity.
Qed.

End Compilation.

(* ================================================================== *)
(** ** What a compiled pattern matches *)

Section Matching.

Import RegExp.

Lemma matches_star_unfold (a : atom) (rest : regexp) (b : bool) (s : jsstring) :
  matches (Star a :: rest) b s
  = match s with
    | c :: s' => (atom_matches a c && matches (Star a :: rest) false s')
                 || matches rest b s
    | [] => matches rest b s
    end.
Proof. destruct s; reflexivity. Qed.

Lemma wildcard_star_inv (gap : code_unit -> bool) (token s : jsstring) :
  wildcard_match gap (star :: token) s ->
  exists run s0, s = run ++ s0 /\ forallb gap run = true
                 /\ wildcard_match gap token s0.
Proof.
  intros H. inversion H; subst.
  - discriminate.
  - eauto.
Qed.

Lemma wildcard_literal_inv (gap : code_unit -> bool) (c : code_unit)
  (token s : jsstring) :
  N.eqb c star = false ->
  wildcard_match gap (c :: token) s ->
  exists s0, s = c :: s0 /\ wildcard_match gap token s0.
Proof.
  intros Hc H. inversion H; subst.
  - eauto.
  - rewrite N.eqb_refl in Hc. discriminate.
Qed.

(** A greedy [.*] followed by [rest] matches exactly the subjects that
    split into a run free of line terminators and a match of [rest]. *)
Lemma matches_any_star (token : jsstring) (rest : regexp) :
  (forall b s, matches rest b s = true
               <-> wildcard_match not_line_terminator token s) ->
  forall s b, matches (Star AnyChar :: rest) b s = true
              <-> wildcard_match not_line_terminator (star :: token) s.
Proof.
  intros Hrest. induction s as [|x s IH]; intros b;
    rewrite matches_star_unfold.
  - rewrite Hrest. split.
    + intros H. apply (wm_star not_line_terminator [] token _ eq_refl H).
    + intros H. apply wildcard_star_inv in H.
      destruct H as (run & s0 & E & _ & H).
      symmetry in E. apply app_eq_nil in E. destruct E; subst. assumption.
  - rewrite orb_true_iff, andb_true_iff, IH, Hrest. split.
    + intros [[Hx H] | H].
      * apply wildcard_star_inv in H. destruct H as (run & s0 & -> & Hrun & H).
        apply (wm_star not_line_terminator (x :: run) token s0); [|assumption].
        simpl. unfold atom_matches in Hx. unfold not_line_terminator at 1.
        rewrite Hx, Hrun. reflexivity.
      * apply (wm_star not_line_terminator [] token _ eq_refl H).
    + intros H. apply wildcard_star_inv in H.
      destruct H as ([|y run] & s0 & E & Hrun & H); simpl in E.
      * subst s0. right; assumption.
      * inversion E; subst. simpl in Hrun. apply andb_true_iff in Hrun.
        destruct Hrun as [Hy Hrun]. left. split; [exact Hy|].
        apply wm_star; assumption.
Qed.

(** The body of an anchored pattern matches the subjects the token
    describes, wherever the match starts. *)
Lemma matches_token (token : jsstring) :
  forall b s, matches (map term_of token ++ [AssertEnd]) b s = true
              <-> wildcard_match not_line_terminator token s.
Proof.
  induction token as [|c token IH]; intros b s.
  - simpl. rewrite andb_true_r. destruct s; simpl; split; intros H;
      try constructor; try discriminate; inversion H.
  - cbn [map app]. unfold term_of at 1. destruct (N.eqb c star) eqn:Ec.
    + apply N.eqb_eq in Ec. subst c. apply matches_any_star. exact IH.
    + destruct s as [|x s]; cbn [matches atom_matches].
      * split; [discriminate|]. intros H.
        apply wildcard_literal_inv in H; [|assumption].
        destruct H as (s0 & E & _). discriminate.
      * rewrite andb_true_iff, N.eqb_eq, IH. split.
        -- intros [-> H]. apply wm_literal; assumption.
        -- intros H. apply wildcard_literal_inv in H; [|assumption].
           destruct H as (s0 & E & H). inversion E; subst. auto.
Qed.

Lemma search_anchored (r : regexp) (s : jsstring) :
  search (AssertStart :: r) false s = false.
Proof. induction s as [|x s IH]; simpl; [reflexivity | exact IH]. Qed.

(** A pattern that opens with [^] can only match from index 0. *)
Lemma accepts_anchored (r : regexp) (s : jsstring) :
  accepts (AssertStart :: r) s = matches r true s.
Proof.
  unfold accepts. destruct s as [|x s]; cbn [search].
  - rewrite orb_false_r. reflexivity.
  - rewrite search_anchored, orb_false_r. reflexivity.
Qed.

Lemma accepts_pattern_of (token origin : jsstring) :
  accepts (pattern_of token) origin = true
  <-> wildcard_match not_line_terminator token origin.
Proof. unfold pattern_of. rewrite accepts_anchored. apply matches_token. Qed.

(** A pattern the engine runs answers by the matching rules. *)
Lemma test_runs (engine : Engine) (re : regexp) (s : jsstring) :
  engine re s = None -> test engine re s = Normal (accepts re s).
Proof. unfold test. intros ->. reflexivity. Qed.

(** A pattern never answers [true] without a match. *)
Lemma test_true (engine : Engine) (re : regexp) (s : jsstring) :
  test engine re s = Normal true -> accepts re s = true.
Proof.
  unfold test. destruct (engine re s); [discriminate|].
  intros E. inversion E. reflexivity.
Qed.

Lemma test_pattern_of (engine : Engine) (token origin : jsstring) :
  engine (pattern_of token) origin = None ->
  (test engine (pattern_of token) origin = Normal true
   <-> wildcard_match not_line_terminator token origin).
Proof.
  intros H. rewrite (test_runs engine _ _ H), <- accepts_pattern_of.
  split; [intros E; inversion E; reflexivity | intros ->; reflexivity].
Qed.



End Matching.

(* ================================================================== *)
(** ** The parsed policy *)

Section Policy.

Lemma fold_Set_add_In (x : jsstring) (l : list jsstring) (s : StringSet) :
  In x (fold_left (fun acc t => Set_add t acc) l s) <-> In x s \/ In x l.
Proof.
  revert s. induction l as [|t l IH]; intros s; simpl; [tauto|].
  rewrite IH, Set_add_In. intuition congruence.
Qed.

(** The loop never throws; it files tokens without a star in the set and
    appends the pattern of every other token, in order. *)
Lemma classify_spec (tokens : list jsstring) (acc : AllowedOrigins) :
  classify tokens acc
  = Normal
      {| exact := fold_left (fun s t => Set_add t s)
                    (filter (fun t => negb (includes star t)) tokens)
                    (exact acc);
         wildcards := wildcards acc
                      ++ map pattern_of (filter (includes star) tokens) |}.
Proof.
  revert acc. induction tokens as [|t tokens IH]; intros acc; simpl.
  - rewrite app_nil_r. destruct acc; reflexivity.
  - destruct (includes star t); simpl.
    + rewrite toWildcardRegExp_pattern. simpl. rewrite IH. simpl.
      rewrite <- app_assoc. reflexivity.
    + rewrite IH. reflexivity.
Qed.

Lemma parseAllowedOrigins_spec (raw : jsstring) :
  parseAllowedOrigins raw
  = Normal
      {| exact := fold_left (fun s t => Set_add t s)
                    (filter (fun t => negb (includes star t)) (tokenize raw))
                    [];
         wildcards := map pattern_of
                        (filter (includes star) (tokenize raw)) |}.
Proof. unfold parseAllowedOrigins. rewrite classify_spec. reflexivity. Qed.

Lemma tokenize_In (raw token : jsstring) :
  In token (tokenize raw)
  <-> token <> [] /\ exists piece, In piece (split comma raw)
                                   /\ token = trim piece.
Proof.
  unfold tokenize. rewrite filter_In, in_map_iff. split.
  - intros [(piece & E & H) Ht]. split; [|eauto].
    intros ->. discriminate.
  - intros [Hne (piece & H & E)]. split; [eauto|].
    destruct token; [contradiction | reflexivity].
Qed.

Lemma tokenize_all_blank (raw : jsstring) :
  Forall (fun piece => trim piece = []) (split comma raw) ->
  tokenize raw = [].
Proof.
  unfold tokenize. induction (split comma raw) as [|p ps IH]; intros H;
    [reflexivity|].
  inversion H; subst. simpl. rewrite H2. simpl. auto.
Qed.

(** Patterns the engine runs are tried like [existsb]. *)
Lemma some_test_runs (engine : RegExp.Engine) (res : list RegExp.regexp)
  (o : jsstring) :
  (forall re, In re res -> engine re o = None) ->
  some_test engine res o
  = Normal (existsb (fun re => RegExp.accepts re o) res).
Proof.
  induction res as [|re res IH]; intros H; [reflexivity|].
  cbn [some_test existsb].
  rewrite (test_runs engine re o (H re (or_introl eq_refl))).
  cbn [JS.bind]. destruct (RegExp.accepts re o); [reflexivity|].
  apply IH. intros re' Hin. apply H. right. assumption.
Qed.

(** On any engine, the loop answers [true] only on a match. *)
Lemma some_test_true (engine : RegExp.Engine) (res : list RegExp.regexp)
  (o : jsstring) :
  some_test engine res o = Normal true ->
  exists re, In re res /\ RegExp.accepts re o = true.
Proof.
  induction res as [|re res IH]; cbn [some_test]; [discriminate|].
  destruct (RegExp.test engine re o) as [[|]|m] eqn:Et; cbn [JS.bind].
  - intros _. exists re. split; [left; reflexivity|].
    apply (test_true engine). assumption.
  - intros H. destruct (IH H) as (re' & Hin & Ha). exists re'.
    split; [right; assumption | assumption].
  - discriminate.
Qed.

(** The verdict of [isAllowed] when no pattern is refused. *)
Lemma isAllowed_runs (engine : RegExp.Engine) (allowed : AllowedOrigins)
  (request_origin : option jsstring) :
  engine_runs engine allowed request_origin ->
  exists verdict,
    isAllowed engine allowed request_origin = Normal verdict
    /\ (verdict = true <-> allowed_by_design allowed request_origin).
Proof.
  unfold allowed_by_design, engine_runs. intros Hruns.
  destruct request_origin as [o|]; cbn [isAllowed].
  - destruct o as [|c o]; cbn [truthy_string is_empty negb].
    + exists true. split; [reflexivity|]. split; auto.
    + destruct (Set_has (c :: o) (exact allowed)) eqn:Eh.
      * exists true. split; [reflexivity|]. apply Set_has_In in Eh.
        split; [|reflexivity]. intros _. right; right. exists (c :: o). auto.
      * rewrite some_test_runs by (intros re Hin; apply (Hruns _ _ eq_refl Hin)).
        eexists. split; [reflexivity|]. rewrite existsb_exists. split.
        -- intros (re & Hin & Ht). right; right. exists (c :: o).
           split; [reflexivity|]. right. eauto.
        -- intros [H | [H | (o' & E & [H | H])]]; try discriminate.
           ++ inversion E; subst o'. apply Set_has_In in H. congruence.
           ++ inversion E; subst o'. exact H.
  - exists true. split; [reflexivity|]. split; auto.
Qed.

(** On any engine, a grant is a grant by design. *)
Lemma isAllowed_true (engine : RegExp.Engine) (allowed : AllowedOrigins)
  (request_origin : option jsstring) :
  isAllowed engine allowed request_origin = Normal true ->
  allowed_by_design allowed request_origin.
Proof.
  unfold allowed_by_design. destruct request_origin as [o|]; [|auto].
  cbn [isAllowed]. destruct o as [|c o]; [auto|].
  cbn [truthy_string is_empty negb].
  destruct (Set_has (c :: o) (exact allowed)) eqn:Eh.
  - intros _. apply Set_has_In in Eh. right; right. exists (c :: o). auto.
  - intros H. apply some_test_true in H. destruct H as (re & Hin & Ha).
    right; right. exists (c :: o). split; [reflexivity|]. right. eauto.
Qed.

Lemma decision_callback (engine : RegExp.Engine) (allowed : AllowedOrigins)
  (request_origin : option jsstring) :
  decision engine (with_origin (OriginCallback allowed)) request_origin
  = isAllowed engine allowed request_origin.
Proof.
  unfold decision, origin_callback. cbn [origin with_origin].
  destruct (isAllowed engine allowed request_origin); reflexivity.
Qed.

Lemma createCorsMiddleware_closed (raw : jsstring) :
  raw <> [] -> raw <> js "*" ->
  createCorsMiddleware (Some raw)
  = (allowed <- parseAllowedOrigins raw ;;
     Normal (with_origin (OriginCallback allowed))).
Proof.
  intros Hne Hstar. unfold createCorsMiddleware.
  destruct raw as [|c raw]; [contradiction|]. cbn [truthy_string is_empty negb orb].
  destruct (str_eqb (c :: raw) (js "*")) eqn:E; [|reflexivity].
  apply str_eqb_eq in E. contradiction.
Qed.

End Policy.

(* ================================================================== *)
(** ** A token beyond the engine's limit *)

Section EngineLimit.

Import RegExp.

Lemma longest_text_literals (t : jsstring) (rest : regexp) (run : N) :
  includes star t = false ->
  longest_text (map term_of t ++ rest) run
  = longest_text rest (run + N.of_nat (List.length t)).
Proof.
  revert run. induction t as [|c t IH]; intros run Ht.
  - simpl. rewrite N.add_0_r. reflexivity.
  - unfold includes in Ht. cbn [existsb] in Ht.
    apply orb_false_iff in Ht. destruct Ht as [Hc Ht].
    cbn [map app]. unfold term_of at 1. rewrite N.eqb_sym, Hc.
    cbn [longest_text]. rewrite (IH (N.succ run) Ht).
    f_equal. cbn [List.length]. lia.
Qed.

Lemma includes_repeat (c a : code_unit) (n : nat) :
  N.eqb c a = false -> includes c (repeat a n) = false.
Proof.
  intros H. unfold includes. induction n as [|n IH]; [reflexivity|].
  cbn [repeat existsb]. rewrite H, IH. reflexivity.
Qed.

(** The pattern of a star followed by [n] letters has a text run of [n]. *)
Lemma longest_text_star_run (n : nat) :
  longest_text (pattern_of (star :: repeat 97 n)) 0 = N.of_nat n.
Proof.
  unfold pattern_of. cbn [map app]. unfold term_of at 1.
  change (N.eqb star star) with true. cbn [longest_text].
  rewrite longest_text_literals by (apply includes_repeat; reflexivity).
  cbn [longest_text]. rewrite repeat_length. lia.
Qed.

Lemma split_without_separator (sep : code_unit) (s : jsstring) :
  ~ In sep s -> split sep s = [s].
Proof.
  induction s as [|c s IH]; intros H; [reflexivity|].
  cbn [split]. destruct (N.eqb c sep) eqn:E.
  - apply N.eqb_eq in E. subst c. exfalso. apply H. left. reflexivity.
  - rewrite IH; [reflexivity|]. intros Hin. apply H. right. assumption.
Qed.

Lemma rev_repeat_self (a : code_unit) (n : nat) :
  rev (repeat a n) = repeat a n.
Proof.
  induction n as [|n IH]; [reflexivity|].
  cbn [repeat rev]. rewrite IH. symmetry. apply repeat_cons.
Qed.

Lemma tokenize_star_run (n : nat) :
  tokenize (star :: repeat 97 (S n)) = [star :: repeat 97 (S n)].
Proof.
  unfold tokenize. rewrite split_without_separator.
  - cbn [map]. unfold trim, trimEnd.
    change (trimStart (star :: repeat 97 (S n)))
      with (star :: repeat 97 (S n)).
    cbn [rev]. rewrite rev_repeat_self. cbn [repeat app].
    change (trimStart (97 :: repeat 97 n ++ [star]))
      with (97 :: repeat 97 n ++ [star]).
    change (97 :: repeat 97 n ++ [star])
      with (repeat 97 (S n) ++ [star]).
    rewrite rev_app_distr, rev_repeat_self. reflexivity.
  - intros [E | Hin]; [discriminate E|].
    apply repeat_spec in Hin. discriminate Hin.
Qed.

(** The policy built from a configuration that is one such token. *)
Lemma createCorsMiddleware_star_run (n : nat) :
  createCorsMiddleware (Some (star :: repeat 97 (S n)))
  = Normal (with_origin
              (OriginCallback
                 {| exact := [];
                    wildcards := [pattern_of (star :: repeat 97 (S n))] |})).
Proof.
  rewrite createCorsMiddleware_closed;
    [|discriminate | intros E; inversion E].
  rewrite parseAllowedOrigins_spec, tokenize_star_run.
  cbn [filter]. unfold includes at 1 2. cbn [existsb].
  change (N.eqb star star) with true. cbn [orb negb filter map fold_left].
  reflexivity.
Qed.

Lemma giant_run_unfold :
  exists n, giant_run = repeat 97 (S n) /\ N.of_nat (S n) = 32768.
Proof.
  unfold giant_run. destruct (N.to_nat 32768) as [|n] eqn:E.
  - apply (f_equal N.of_nat) in E. rewrite N2Nat.id in E. discriminate E.
  - exists n. split; [reflexivity|]. rewrite <- E. apply N2Nat.id.
Qed.

(** The pattern of the giant token is beyond the bound, on every subject. *)
Lemma v8_refuses_giant (o : jsstring) :
  v8_text_limit (pattern_of giant_token) o = Some too_large.
Proof.
  unfold giant_token. destruct giant_run_unfold as (n & -> & Hn).
  unfold v8_text_limit. rewrite longest_text_star_run, Hn. reflexivity.
Qed.

Lemma createCorsMiddleware_giant :
  createCorsMiddleware (Some giant_token)
  = Normal (with_origin
              (OriginCallback
                 {| exact := [];
                    wildcards := [pattern_of giant_token] |})).
Proof.
  unfold giant_token. destruct giant_run_unfold as (n & -> & _).
  apply createCorsMiddleware_star_run.
Qed.

End EngineLimit.

(* ================================================================== *)
(** ** Origin policy: the claims *)

Section OriginPolicyClaims.




(** C2.  When [CORS_ORIGIN] is unset or is the literal ["*"], the middleware
    is built with [origin: "*"] and every request is granted, whatever its
    origin. *)
Theorem C2_open_policy (engine : RegExp.Engine) (raw : option jsstring) :
  raw = None \/ raw = Some (js "*") ->
  createCorsMiddleware raw = Normal (with_origin OriginStar)
  /\ forall request_origin,
       decision engine (with_origin OriginStar) request_origin
       = Normal true.
Proof.
  intros [-> | ->]; split; reflexivity || (intros; reflexivity).
Qed.

Lemma C2_open_policy_witness :
  createCorsMiddleware (Some (js "*")) = Normal (with_origin OriginStar)
  /\ forall request_origin,
       decision RegExp.v8_text_limit (with_origin OriginStar) request_origin
       = Normal true.
Proof.
  apply (C2_open_policy RegExp.v8_text_limit (Some (js "*"))). right. reflexivity.
Defined.



(** C4.  Under ["https://a.com,https://*.b.com"] the decision grants
    ["https://a.com"] and ["https://x.b.com"] and denies
    ["https://a.com.evil.com"] and ["http://a.com"]. *)
Theorem C4_sample_configuration :
  exists opts,
    createCorsMiddleware (Some sample_config) = Normal opts
    /\ decision RegExp.v8_text_limit opts (Some (js "https://a.com")) = Normal true
    /\ decision RegExp.v8_text_limit opts (Some (js "https://x.b.com")) = Normal true
    /\ decision RegExp.v8_text_limit opts (Some (js "https://a.com.evil.com"))
       = Normal false
    /\ decision RegExp.v8_text_limit opts (Some (js "http://a.com")) = Normal false.
Proof.
  eexists. split; [vm_compute; reflexivity|].
  repeat split; vm_compute; reflexivity.
Qed.

(** C5 (the code breaks it).  Under a configuration made of one wildcard
    token with a text run of 32768 code units, the policy is built without
    error, and on a request from ["https://x.b.com"] the pattern is refused
    when it is first run: [isAllowed] throws, the origin callback throws
    with it and never calls its continuation, and the decision ends in the
    thrown error where the claim expects a denial. *)
Theorem C5_origin_callback_throws_on_giant_token :
  createCorsMiddleware (Some giant_token)
  = Normal (with_origin
              (OriginCallback
                 {| exact := []; wildcards := [pattern_of giant_token] |}))
  /\ isAllowed RegExp.v8_text_limit
       {| exact := []; wildcards := [pattern_of giant_token] |}
       (Some ordinary_origin) = Throw RegExp.too_large
  /\ origin_callback RegExp.v8_text_limit
       {| exact := []; wildcards := [pattern_of giant_token] |}
       (Some ordinary_origin) (fun err allow => (err, allow))
     = Throw RegExp.too_large
  /\ decision RegExp.v8_text_limit
       (with_origin
          (OriginCallback
             {| exact := []; wildcards := [pattern_of giant_token] |}))
       (Some ordinary_origin) = Throw RegExp.too_large.
Proof.
  assert (H : isAllowed RegExp.v8_text_limit
                {| exact := []; wildcards := [pattern_of giant_token] |}
                (Some ordinary_origin) = Throw RegExp.too_large).
  { unfold isAllowed, ordinary_origin.
    cbn [truthy_string is_empty negb js map list_ascii_of_string
         Set_has existsb exact wildcards some_test].
    unfold RegExp.test. rewrite v8_refuses_giant. reflexivity. }
  split; [apply createCorsMiddleware_giant|]. split; [exact H|]. split.
  - unfold origin_callback. rewrite H. reflexivity.
  - rewrite decision_callback. exact H.
Qed.

(** C10 (as the code has it).  A configuration that is neither empty nor
    ["*"] and whose comma-separated pieces all trim to the empty string does
    not open the policy: the exact set and the pattern list are empty, every
    request with a non-empty [Origin] header is denied, and a request
    without the header is granted. *)
Theorem C10_blank_tokens_close_policy (engine : RegExp.Engine)
  (raw : jsstring) :
  raw <> [] -> raw <> js "*" ->
  Forall (fun piece => trim piece = []) (split comma raw) ->
  let opts := with_origin (OriginCallback {| exact := []; wildcards := [] |}) in
  createCorsMiddleware (Some raw) = Normal opts
  /\ (forall o, o <> [] -> decision engine opts (Some o) = Normal false)
  /\ decision engine opts None = Normal true.
Proof.
  intros Hne Hstar Hblank opts. split; [|split].
  - rewrite createCorsMiddleware_closed by assumption.
    rewrite parseAllowedOrigins_spec, (tokenize_all_blank raw Hblank).
    reflexivity.
  - intros [|c o] Ho; [contradiction | reflexivity].
  - reflexivity.
Qed.

Lemma C10_blank_tokens_witness :
  createCorsMiddleware (Some blanks_and_comma)
  = Normal (with_origin (OriginCallback {| exact := []; wildcards := [] |}))
  /\ (forall o, o <> [] ->
        decision RegExp.v8_text_limit
          (with_origin (OriginCallback {| exact := []; wildcards := [] |}))
          (Some o) = Normal false)
  /\ decision RegExp.v8_text_limit
       (with_origin (OriginCallback {| exact := []; wildcards := [] |}))
       None = Normal true.
Proof.
  apply (C10_blank_tokens_close_policy RegExp.v8_text_limit blanks_and_comma).
  - discriminate.
  - discriminate.
  - vm_compute. repeat constructor.
Defined.

(** C10 (as stated) fails: under [",,"] a request that carries an [Origin]
    header with an empty value is granted, not denied. *)
Lemma C10_empty_origin_header_is_granted :
  exists opts,
    createCorsMiddleware (Some commas_only) = Normal opts
    /\ origin opts = OriginCallback {| exact := []; wildcards := [] |}
    /\ decision RegExp.v8_text_limit opts (Some []) = Normal true.
Proof. eexists. repeat split; vm_compute; reflexivity. Qed.

End OriginPolicyClaims.

(* ================================================================== *)
(** ** Storage-client configuration *)

Section StorageConfiguration.

Import Cloudinary.
Local Open Scope cloudinary_scope.

Lemma assertEnv_eq (name : jsstring) (env : Env) (st : State) :
  assertEnv name env st
  = match env name with
    | Some value =>
        if truthy_string value then (Normal value, st)
        else (Throw (missing_message name), st)
    | None => (Throw (missing_message name), st)
    end.
Proof.
  unfold assertEnv, mbind, read_env.
  destruct (env name) as [v|]; [destruct (truthy_string v)|]; reflexivity.
Qed.

Lemma ensureConfigured_done (env : Env) (st : State) :
  configured st = true -> ensureConfigured env st = (Normal tt, st).
Proof.
  intros H. unfold ensureConfigured, mbind, get_configured. rewrite H.
  reflexivity.
Qed.

Lemma ensureConfigured_unfold (env : Env) (st : State) :
  ensureConfigured env st
  = if configured st then (Normal tt, st)
    else
      match assertEnv CLOUDINARY_CLOUD_NAME env st with
      | (Throw e, st1) => (Throw e, st1)
      | (Normal cn, st1) =>
          match assertEnv CLOUDINARY_API_KEY env st1 with
          | (Throw e, st2) => (Throw e, st2)
          | (Normal key, st2) =>
              match assertEnv CLOUDINARY_API_SECRET env st2 with
              | (Throw e, st3) => (Throw e, st3)
              | (Normal secret, st3) =>
                  (Normal tt,
                   {| configured := true;
                      sdk_config :=
                        Some {| cloud_name := cn; api_key := key;
                                api_secret := secret |} |})
              end
          end
      end.
Proof.
  unfold ensureConfigured, mbind, get_configured.
  destruct (configured st); [reflexivity|].
  destruct (assertEnv CLOUDINARY_CLOUD_NAME env st) as [[cn|e] st1];
    [|reflexivity].
  destruct (assertEnv CLOUDINARY_API_KEY env st1) as [[key|e] st2];
    [|reflexivity].
  destruct (assertEnv CLOUDINARY_API_SECRET env st2) as [[secret|e] st3];
    reflexivity.
Qed.

Ltac read_variable env name :=
  rewrite (assertEnv_eq name);
  destruct (env name) as [[|? ?]|];
  cbn [truthy truthy_string is_empty negb].

Lemma ensureConfigured_throws (env : Env) (st : State) (name : jsstring) :
  configured st = false -> first_missing env = Some name ->
  ensureConfigured env st = (Throw (missing_message name), st).
Proof.
  intros Hc. rewrite ensureConfigured_unfold, Hc.
  unfold first_missing, required. cbn [find].
  read_variable env CLOUDINARY_CLOUD_NAME;
    try (intros E; inversion E; reflexivity).
  read_variable env CLOUDINARY_API_KEY;
    try (intros E; inversion E; reflexivity).
  read_variable env CLOUDINARY_API_SECRET;
    intros E; inversion E; reflexivity.
Qed.

Lemma ensureConfigured_configures (env : Env) (st : State) :
  configured st = false -> first_missing env = None ->
  exists cn key secret,
    env CLOUDINARY_CLOUD_NAME = Some cn
    /\ env CLOUDINARY_API_KEY = Some key
    /\ env CLOUDINARY_API_SECRET = Some secret
    /\ ensureConfigured env st
       = (Normal tt,
          {| configured := true;
             sdk_config := Some {| cloud_name := cn; api_key := key;
                                   api_secret := secret |} |}).
Proof.
  intros Hc. rewrite ensureConfigured_unfold, Hc.
  unfold first_missing, required. cbn [find].
  read_variable env CLOUDINARY_CLOUD_NAME; try discriminate.
  read_variable env CLOUDINARY_API_KEY; try discriminate.
  read_variable env CLOUDINARY_API_SECRET; try discriminate.
  intros _. do 3 eexists. repeat split.
Qed.

Lemma first_missing_Some (env : Env) (name : jsstring) :
  first_missing env = Some name ->
  In name required /\ truthy (env name) = false.
Proof.
  intros H. apply find_some in H. destruct H as [Hin H].
  apply negb_true_iff in H. auto.
Qed.

Lemma first_missing_None (env : Env) :
  first_missing env = None ->
  forall name, In name required -> truthy (env name) = true.
Proof.
  intros H name Hin. apply (find_none _ _ H) in Hin.
  apply negb_false_iff in Hin. exact Hin.
Qed.

(** Whatever the call does, it leaves the flag set exactly when it returns
    normally. *)
Lemma ensureConfigured_outcome (env : Env) (st : State) :
  (exists st', ensureConfigured env st = (Normal tt, st')
               /\ configured st' = true)
  \/ (exists name, configured st = false /\ first_missing env = Some name
                   /\ ensureConfigured env st
                      = (Throw (missing_message name), st)).
Proof.
  destruct (configured st) eqn:Hc.
  - left. exists st. split; [apply ensureConfigured_done|]; assumption.
  - destruct (first_missing env) as [name|] eqn:Hm.
    + right. exists name. repeat split.
      apply ensureConfigured_throws; assumption.
    + left. destruct (ensureConfigured_configures env st Hc Hm)
        as (cn & key & secret & _ & _ & _ & E).
      eexists. split; [exact E | reflexivity].
Qed.

Lemma find_first {A : Type} (f : A -> bool) (l : list A) (x : A) :
  find f l = Some x ->
  exists before after,
    l = before ++ x :: after /\ forall y, In y before -> f y = false.
Proof.
  induction l as [|a l IH]; [discriminate|]. cbn [find].
  destruct (f a) eqn:Ea.
  - intros E. inversion E; subst a. exists [], l. split; [reflexivity|].
    intros y [].
  - intros E. destruct (IH E) as (before & after & -> & H).
    exists (a :: before), after. split; [reflexivity|].
    intros y [<- | Hy]; auto.
Qed.

(** C7 (as the code has it).  When the configuration runs (the flag is not
    set) and one of the three required variables is unset or empty, the
    call throws; the message is ["Missing env var: "] followed by the name
    of the first required variable, in reading order, that is unset or
    empty, every required variable read before it holding a non-empty
    value; it is the rejected variable itself when the other two hold
    non-empty values; the flag and the SDK configuration are left as they
    were. *)
Theorem C7_missing_credential_throws (env : Env) (st : State)
  (rejected : jsstring) :
  configured st = false ->
  In rejected required -> truthy (env rejected) = false ->
  exists named before after,
    ensureConfigured env st = (Throw (js "Missing env var: " ++ named), st)
    /\ required = before ++ named :: after
    /\ (env named = None \/ env named = Some [])
    /\ (forall name, In name before -> truthy (env name) = true)
    /\ ((forall name, In name required -> name <> rejected ->
                      truthy (env name) = true) ->
        named = rejected).
Proof.
  intros Hc Hin Hrej.
  destruct (first_missing env) as [named|] eqn:Hm.
  - pose proof (first_missing_Some env named Hm) as [Hr Ht].
    destruct (find_first _ _ _ Hm) as (before & after & Hsplit & Hbefore).
    exists named, before, after.
    split; [apply ensureConfigured_throws; assumption|].
    split; [assumption|]. split; [|split].
    + destruct (env named) as [[|c v]|]; auto. discriminate Ht.
    + intros name Hname. apply negb_false_iff. apply Hbefore. assumption.
    + intros Hothers.
      destruct (list_eq_dec N.eq_dec named rejected) as [E | E];
        [assumption|].
      rewrite (Hothers named Hr E) in Ht. discriminate Ht.
  - pose proof (first_missing_None env Hm rejected Hin) as Ht.
    rewrite Hrej in Ht. discriminate Ht.
Qed.

Lemma C7_missing_credential_witness :
  exists named before after,
    ensureConfigured env_empty_name_without_key fresh
    = (Throw (js "Missing env var: " ++ named), fresh)
    /\ required = before ++ named :: after
    /\ (env_empty_name_without_key named = None
        \/ env_empty_name_without_key named = Some [])
    /\ (forall name, In name before ->
                     truthy (env_empty_name_without_key name) = true)
    /\ ((forall name, In name required -> name <> CLOUDINARY_API_KEY ->
                      truthy (env_empty_name_without_key name) = true) ->
        named = CLOUDINARY_API_KEY).
Proof.
  apply (C7_missing_credential_throws env_empty_name_without_key fresh
           CLOUDINARY_API_KEY).
  - reflexivity.
  - right. left. reflexivity.
  - reflexivity.
Defined.

(** C7 (as stated) fails: with the cloud name set to the empty string and
    the API key unset, a required variable is absent, yet the message names
    the cloud name, which is set, and not a variable that is absent. *)
Lemma C7_message_names_a_set_variable :
  configured fresh = false
  /\ In CLOUDINARY_API_KEY required
  /\ env_empty_name_without_key CLOUDINARY_API_KEY = None
  /\ ensureConfigured env_empty_name_without_key fresh
     = (Throw (missing_message CLOUDINARY_CLOUD_NAME), fresh)
  /\ env_empty_name_without_key CLOUDINARY_CLOUD_NAME = Some []
  /\ ~ names_an_absent_variable env_empty_name_without_key
         (missing_message CLOUDINARY_CLOUD_NAME).
Proof.
  split; [reflexivity|]. split; [right; left; reflexivity|].
  split; [reflexivity|]. split; [reflexivity|]. split; [reflexivity|].
  intros (name & Hin & Hnone & Hmsg).
  destruct Hin as [<- | [<- | [<- | []]]].
  - vm_compute in Hnone. discriminate Hnone.
  - vm_compute in Hmsg. discriminate Hmsg.
  - vm_compute in Hnone. discriminate Hnone.
Qed.

(** C8.  After a call that returned normally, every later call, under any
    environment, returns normally and leaves the state as it is; and a call
    followed by a second call ends in the same completion and the same state
    as the call alone. *)
Theorem C8_ensureConfigured_idempotent (env : Env) (st st' : State) :
  ensureConfigured env st = (Normal tt, st') ->
  configured st' = true
  /\ (forall env', ensureConfigured env' st' = (Normal tt, st'))
  /\ twice ensureConfigured env st = ensureConfigured env st.
Proof.
  intros E.
  assert (Hc : configured st' = true).
  { destruct (ensureConfigured_outcome env st)
      as [(st1 & E1 & H1) | (name & _ & _ & E1)]; rewrite E in E1.
    - inversion E1; subst. assumption.
    - discriminate. }
  split; [assumption|]. split.
  - intros env'. apply ensureConfigured_done. assumption.
  - unfold twice, mbind. rewrite E. apply ensureConfigured_done. assumption.
Qed.

Lemma C8_ensureConfigured_idempotent_witness :
  configured
    {| configured := true;
       sdk_config := Some {| cloud_name := js "demo"; api_key := js "key";
                             api_secret := js "secret" |} |} = true
  /\ (forall env',
        ensureConfigured env'
          {| configured := true;
             sdk_config := Some {| cloud_name := js "demo";
                                   api_key := js "key";
                                   api_secret := js "secret" |} |}
        = (Normal tt,
           {| configured := true;
              sdk_config := Some {| cloud_name := js "demo";
                                    api_key := js "key";
                                    api_secret := js "secret" |} |}))
  /\ twice ensureConfigured full_env fresh
     = ensureConfigured full_env fresh.
Proof.
  apply (C8_ensureConfigured_idempotent full_env fresh). reflexivity.
Defined.

(** C9.  A call that throws leaves the state untouched, flag unset; a later
    call under an environment holding the three variables then configures
    the SDK with their values and sets the flag; and a call that starts
    with the flag unset ends with it set only if the three variables were
    all read as non-empty strings. *)
Theorem C9_failure_leaves_flag_unset (env : Env) (st st' : State)
  (message : jsstring) :
  ensureConfigured env st = (Throw message, st') ->
  st' = st
  /\ configured st' = false
  /\ (forall env2,
        first_missing env2 = None ->
        exists cn key secret,
          env2 CLOUDINARY_CLOUD_NAME = Some cn
          /\ env2 CLOUDINARY_API_KEY = Some key
          /\ env2 CLOUDINARY_API_SECRET = Some secret
          /\ ensureConfigured env2 st'
             = (Normal tt,
                {| configured := true;
                   sdk_config := Some {| cloud_name := cn; api_key := key;
                                         api_secret := secret |} |}))
  /\ (forall env0 st0,
        configured st0 = false ->
        configured (snd (ensureConfigured env0 st0)) = true ->
        forall name, In name required -> truthy (env0 name) = true).
Proof.
  intros E.
  destruct (ensureConfigured_outcome env st)
    as [(st1 & E1 & _) | (name & Hc & _ & E1)]; rewrite E in E1;
    [discriminate|].
  inversion E1; subst st'. split; [reflexivity|]. split; [assumption|]. split.
  - intros env2 H2. apply ensureConfigured_configures; assumption.
  - intros env0 st0 Hc0 Hset.
    destruct (first_missing env0) as [n|] eqn:Hm.
    + rewrite (ensureConfigured_throws env0 st0 n Hc0 Hm) in Hset.
      simpl in Hset. congruence.
    + apply first_missing_None. assumption.
Qed.

Lemma C9_failure_leaves_flag_unset_witness :
  fresh = fresh
  /\ configured fresh = false
  /\ (forall env2,
        first_missing env2 = None ->
        exists cn key secret,
          env2 CLOUDINARY_CLOUD_NAME = Some cn
          /\ env2 CLOUDINARY_API_KEY = Some key
          /\ env2 CLOUDINARY_API_SECRET = Some secret
          /\ ensureConfigured env2 fresh
             = (Normal tt,
                {| configured := true;
                   sdk_config := Some {| cloud_name := cn; api_key := key;
                                         api_secret := secret |} |}))
  /\ (forall env0 st0,
        configured st0 = false ->
        configured (snd (ensureConfigured env0 st0)) = true ->
        forall name, In name required -> truthy (env0 name) = true).
Proof.
  apply (C9_failure_leaves_flag_unset empty_env fresh fresh
           (missing_message CLOUDINARY_CLOUD_NAME)).
  reflexivity.
Defined.

End StorageConfiguration.

(* ================================================================== *)
(** ** Client-side error text *)

Section ErrorMessage.

Import Page.

Context {number : Type} (number_truthy : number -> bool).

Lemma extractErrorMessage_not_object (data : json number) (status : N) :
  (forall props, data <> JObject props) ->
  extractErrorMessage number_truthy data status = generic_by_design status.
Proof.
  intros H. destruct data; try reflexivity.
  - unfold extractErrorMessage. cbn [truthy_value typeof is_object_tag].
    rewrite andb_false_r. reflexivity.
  - unfold extractErrorMessage. cbn [truthy_value typeof is_object_tag].
    rewrite andb_false_r. reflexivity.
  - unfold extractErrorMessage. cbn [truthy_value typeof is_object_tag].
    rewrite andb_false_r. reflexivity.
  - exfalso. apply (H props). reflexivity.
Qed.

Lemma extractErrorMessage_priority (data : json number) (status : N) :
  extractErrorMessage number_truthy data status
  = message_by_priority generic_by_design data status.
Proof.
  destruct data as [| b | x | s | items | props].
  1-4: rewrite extractErrorMessage_not_object by discriminate; reflexivity.
  - reflexivity.
  - unfold extractErrorMessage, message_by_priority, top_string,
      nested_string.
    cbn [truthy_value typeof is_object_tag andb optional_get].
    destruct (lookup (js "error") props) as [[| b | x | s | items | fields]|];
      cbn [typeof is_string_tag string_value optional_get]; try reflexivity;
      try (destruct (lookup (js "message") props) as [[]|]; reflexivity).
    destruct (lookup (js "message") fields) as [[]|];
      cbn [typeof is_string_tag string_value]; try reflexivity;
      destruct (lookup (js "message") props) as [[]|]; reflexivity.
Qed.

(** C6 (as the code has it).  For every body and status, the extracted
    message is the top-level [error] when that is a string, else the nested
    [error.message] when that is a string, else the top-level [message]
    when that is a string, else the generic text ["Erreur upload (<status>)"]
    with the status in decimal; a body that is not an object (null
    included) always yields the generic text. *)
Theorem C6_extractErrorMessage_priority (data : json number) (status : N) :
  extractErrorMessage number_truthy data status
  = message_by_priority generic_by_design data status
  /\ ((forall props, data <> JObject props) ->
      extractErrorMessage number_truthy data status
      = js "Erreur upload (" ++ number_to_string status ++ js ")").
Proof.
  split.
  - apply extractErrorMessage_priority.
  - apply extractErrorMessage_not_object.
Qed.

End ErrorMessage.

(** C6 (as stated) fails on the generic text: for a null body and status
    500 the code answers ["Erreur upload (500)"], not
    ["Upload failed (500)"]. *)
Lemma C6_generic_message_is_french :
  Page.extractErrorMessage (fun n : N => negb (N.eqb n 0)) Page.JNull 500
  = js "Erreur upload (500)"
  /\ message_by_priority generic_as_specified (@Page.JNull N) 500
     = js "Upload failed (500)"
  /\ Page.extractErrorMessage (fun n : N => negb (N.eqb n 0)) Page.JNull 500
     <> message_by_priority generic_as_specified (@Page.JNull N) 500.
Proof.
  split; [reflexivity|]. split; [reflexivity|]. vm_compute. discriminate.
Qed.

(* ================================================================== *)
(** ** Origin policy: further properties *)

Section OriginPolicyMore.

Import Scenario.

Lemma includes_cons_false (c x : code_unit) (s : jsstring) :
  includes c (x :: s) = false -> N.eqb x c = false /\ includes c s = false.
Proof.
  unfold includes. simpl. intros H. apply orb_false_iff in H.
  destruct H as [H1 H2]. rewrite N.eqb_sym. auto.
Qed.

(** A star-free head of a token is spelled out at the head of the origin. *)
Lemma wildcard_prefix (gap : code_unit -> bool) (p t o : jsstring) :
  includes star p = false ->
  wildcard_match gap (p ++ t) o ->
  exists o', o = p ++ o' /\ wildcard_match gap t o'.
Proof.
  revert o. induction p as [|c p IH]; intros o Hp H; cbn [app] in *.
  - exists o. auto.
  - apply includes_cons_false in Hp. destruct Hp as [Hc Hp].
    apply wildcard_literal_inv in H; [|assumption].
    destruct H as (s0 & -> & H). destruct (IH s0 Hp H) as (o' & -> & H').
    exists o'. auto.
Qed.

Lemma wildcard_star_free (gap : code_unit -> bool) (q o : jsstring) :
  includes star q = false -> (wildcard_match gap q o <-> o = q).
Proof.
  intros Hq. split.
  - intros H. rewrite <- (app_nil_r q) in H.
    destruct (wildcard_prefix gap q [] o Hq H) as (o' & -> & H').
    inversion H'. apply app_nil_r.
  - intros ->. induction q as [|c q IH]; [constructor|].
    apply includes_cons_false in Hq. destruct Hq as [Hc Hq].
    apply wm_literal; auto.
Qed.

(** A star-free tail of a token is spelled out at the tail of the origin. *)
Lemma wildcard_suffix (gap : code_unit -> bool) (t q o : jsstring) :
  includes star q = false ->
  wildcard_match gap (t ++ q) o ->
  exists o1, o = o1 ++ q /\ wildcard_match gap t o1.
Proof.
  intros Hq. revert o. induction t as [|c t IH]; intros o H; cbn [app] in *.
  - apply (wildcard_star_free gap q o Hq) in H. subst o.
    exists []. split; [reflexivity | constructor].
  - destruct (N.eqb c star) eqn:Ec.
    + apply N.eqb_eq in Ec. subst c. apply wildcard_star_inv in H.
      destruct H as (run & s0 & -> & Hrun & H).
      destruct (IH s0 H) as (o1 & -> & H1).
      exists (run ++ o1). split; [apply app_assoc|].
      apply wm_star; assumption.
    + apply wildcard_literal_inv in H; [|assumption].
      destruct H as (s0 & -> & H). destruct (IH s0 H) as (o1 & -> & H1).
      exists (c :: o1). split; [reflexivity|]. apply wm_literal; assumption.
Qed.

Lemma wildcard_bare_star (o : jsstring) :
  wildcard_match not_line_terminator [star] o
  <-> forallb not_line_terminator o = true.
Proof.
  split.
  - intros H. apply wildcard_star_inv in H.
    destruct H as (run & s0 & -> & Hrun & H). inversion H.
    rewrite app_nil_r. assumption.
  - intros H. rewrite <- (app_nil_r o). apply wm_star; [assumption|].
    constructor.
Qed.

(** What the parsed policy grants by design, read on the tokens alone: a
    token without a star is a pattern that spells only itself. *)
Lemma allowed_by_design_tokens (raw : jsstring) (allowed : AllowedOrigins)
  (o : jsstring) :
  parseAllowedOrigins raw = Normal allowed ->
  (allowed_by_design allowed (Some o)
   <-> o = [] \/ exists token, In token (tokenize raw)
                 /\ wildcard_match not_line_terminator token o).
Proof.
  rewrite parseAllowedOrigins_spec. intros E. inversion E; subst allowed.
  clear E. unfold allowed_by_design.
  cbn [exact wildcards]. split.
  - intros [H | [H | (o' & E & H)]]; [discriminate | inversion H; auto |].
    inversion E; subst o'. right. destruct H as [H | (re & Hre & Ht)].
    + apply fold_Set_add_In in H. destruct H as [[] | H].
      apply filter_In in H. destruct H as [Hin Hs].
      apply negb_true_iff in Hs. exists o. split; [assumption|].
      apply wildcard_star_free; auto.
    + apply in_map_iff in Hre. destruct Hre as (token & <- & Hin).
      apply filter_In in Hin. destruct Hin as [Hin _].
      exists token. split; [assumption|]. apply accepts_pattern_of.
      assumption.
  - intros [-> | (token & Hin & Hm)]; [auto|]. right; right.
    exists o. split; [reflexivity|].
    destruct (includes star token) eqn:Es.
    + right. exists (pattern_of token). split.
      * apply in_map. apply filter_In. auto.
      * apply accepts_pattern_of. assumption.
    + left. apply (wildcard_star_free not_line_terminator token o Es) in Hm.
      subst o. apply fold_Set_add_In. right. apply filter_In.
      rewrite Es. auto.
Qed.

Lemma engine_runs_of_tokens (engine : RegExp.Engine) (raw : jsstring)
  (allowed : AllowedOrigins) (o : jsstring) :
  parseAllowedOrigins raw = Normal allowed ->
  engine_runs_tokens engine raw o ->
  engine_runs engine allowed (Some o).
Proof.
  rewrite parseAllowedOrigins_spec. intros E Hruns. inversion E; subst.
  intros o' re Eo Hin. inversion Eo; subst o'. cbn [wildcards] in Hin.
  apply in_map_iff in Hin. destruct Hin as (token & <- & Hin).
  apply filter_In in Hin. destruct Hin as [Hin Hs]. apply Hruns; assumption.
Qed.

(** The verdict of the parsed policy when the engine runs its patterns. *)
Lemma isAllowed_tokens (engine : RegExp.Engine) (raw : jsstring)
  (allowed : AllowedOrigins) (o : jsstring) :
  parseAllowedOrigins raw = Normal allowed ->
  engine_runs_tokens engine raw o ->
  exists verdict,
    isAllowed engine allowed (Some o) = Normal verdict
    /\ (verdict = true
        <-> o = [] \/ exists token, In token (tokenize raw)
                      /\ wildcard_match not_line_terminator token o).
Proof.
  intros E Hruns.
  destruct (isAllowed_runs engine allowed (Some o)
              (engine_runs_of_tokens engine raw allowed o E Hruns))
    as (verdict & Ev & H).
  exists verdict. split; [assumption|].
  rewrite H. apply allowed_by_design_tokens. assumption.
Qed.

End OriginPolicyMore.

Section OriginPolicyExtras.

Import Scenario.

(** X1.  Under a configuration that is neither empty nor ["*"], on a
    request whose [Origin] value the engine runs the configuration's
    patterns on, the decision is a verdict, and it grants exactly when the
    value is empty or spells one of the tokens from end to end, each star
    of the token standing for a run without line terminators (a token
    without a star spells only itself). *)
Theorem decision_reads_tokens (engine : RegExp.Engine) (raw o : jsstring) :
  raw <> [] -> raw <> js "*" ->
  engine_runs_tokens engine raw o ->
  exists opts verdict,
    createCorsMiddleware (Some raw) = Normal opts
    /\ decision engine opts (Some o) = Normal verdict
    /\ (verdict = true
        <-> o = [] \/ exists token,
                        In token (tokenize raw)
                        /\ wildcard_match not_line_terminator token o).
Proof.
  intros Hne Hstar Hruns. rewrite createCorsMiddleware_closed by assumption.
  destruct (parseAllowedOrigins raw) as [allowed|m] eqn:E;
    [|rewrite parseAllowedOrigins_spec in E; discriminate].
  destruct (isAllowed_tokens engine raw allowed o E Hruns)
    as (verdict & Ev & H).
  eexists. exists verdict. split; [reflexivity|].
  rewrite decision_callback. auto.
Qed.

Lemma decision_reads_tokens_witness :
  exists opts verdict,
    createCorsMiddleware (Some sample_config) = Normal opts
    /\ decision RegExp.v8_text_limit opts (Some ordinary_origin) = Normal verdict
    /\ (verdict = true
        <-> ordinary_origin = []
            \/ exists token,
                 In token (tokenize sample_config)
                 /\ wildcard_match not_line_terminator token
                      ordinary_origin).
Proof.
  apply (decision_reads_tokens RegExp.v8_text_limit sample_config ordinary_origin).
  - discriminate.
  - discriminate.
  - intros token Hin Hs. vm_compute in Hin.
    destruct Hin as [<- | [<- | []]]; [discriminate Hs | reflexivity].
Defined.

(** X2.  Two configurations with the same set of tokens decide alike every
    request on which the engine runs their patterns: order, repetition and
    the white space around tokens then do not matter. *)
Theorem policy_depends_on_token_set (engine : RegExp.Engine)
  (raw1 raw2 o : jsstring) :
  (forall token, In token (tokenize raw1) <-> In token (tokenize raw2)) ->
  engine_runs_tokens engine raw1 o ->
  exists allowed1 allowed2 verdict,
    parseAllowedOrigins raw1 = Normal allowed1
    /\ parseAllowedOrigins raw2 = Normal allowed2
    /\ isAllowed engine allowed1 (Some o) = Normal verdict
    /\ isAllowed engine allowed2 (Some o) = Normal verdict
    /\ isAllowed engine allowed1 None = isAllowed engine allowed2 None.
Proof.
  intros Hsame Hruns1.
  assert (Hruns2 : engine_runs_tokens engine raw2 o).
  { intros token Hin Hs. apply Hruns1; [apply Hsame|]; assumption. }
  destruct (parseAllowedOrigins raw1) as [a1|m] eqn:E1;
    [|rewrite parseAllowedOrigins_spec in E1; discriminate].
  destruct (parseAllowedOrigins raw2) as [a2|m] eqn:E2;
    [|rewrite parseAllowedOrigins_spec in E2; discriminate].
  destruct (isAllowed_tokens engine raw1 a1 o E1 Hruns1) as (v1 & Ev1 & H1).
  destruct (isAllowed_tokens engine raw2 a2 o E2 Hruns2) as (v2 & Ev2 & H2).
  exists a1, a2, v1. split; [reflexivity|]. split; [reflexivity|].
  split; [assumption|]. split; [|reflexivity].
  rewrite Ev2. f_equal. apply eq_true_iff_eq. rewrite H1, H2.
  split; (intros [H | (token & Hin & Hm)]; [auto|]); right; exists token;
    (split; [apply Hsame; assumption | assumption]).
Qed.

Lemma policy_depends_on_token_set_witness :
  exists allowed1 allowed2 verdict,
    parseAllowedOrigins (js "https://a.com,https://*.b.com")
    = Normal allowed1
    /\ parseAllowedOrigins
         (js " https://*.b.com , https://a.com,,https://*.b.com")
       = Normal allowed2
    /\ isAllowed RegExp.v8_text_limit allowed1 (Some ordinary_origin) = Normal verdict
    /\ isAllowed RegExp.v8_text_limit allowed2 (Some ordinary_origin) = Normal verdict
    /\ isAllowed RegExp.v8_text_limit allowed1 None = isAllowed RegExp.v8_text_limit allowed2 None.
Proof.
  apply (policy_depends_on_token_set RegExp.v8_text_limit
           (js "https://a.com,https://*.b.com")
           (js " https://*.b.com , https://a.com,,https://*.b.com")
           ordinary_origin).
  - intros token. vm_compute. tauto.
  - intros token Hin Hs. vm_compute in Hin.
    destruct Hin as [<- | [<- | []]]; [discriminate Hs | reflexivity].
Defined.

(** X3.  A pattern holds the origin to the literal ends of its token: when
    the token reads [p ++ t ++ q] with no star in [p] nor in [q], every
    origin the pattern accepts begins with [p] and ends with [q], the two
    not overlapping. *)
Theorem wildcard_keeps_literal_ends (engine : RegExp.Engine)
  (p t q o : jsstring) (re : RegExp.regexp) :
  includes star p = false -> includes star q = false ->
  toWildcardRegExp (p ++ t ++ q) = Normal re ->
  RegExp.test engine re o = Normal true ->
  exists middle, o = p ++ middle ++ q.
Proof.
  intros Hp Hq Hre Ht. rewrite toWildcardRegExp_pattern in Hre.
  inversion Hre; subst re. apply test_true in Ht.
  apply accepts_pattern_of in Ht.
  destruct (wildcard_prefix _ p (t ++ q) o Hp Ht) as (o' & -> & H').
  destruct (wildcard_suffix _ t q o' Hq H') as (o1 & -> & _).
  exists o1. reflexivity.
Qed.

Lemma wildcard_keeps_literal_ends_witness :
  exists middle,
    js "https://x.b.com" = js "https://" ++ middle ++ js ".b.com".
Proof.
  apply (wildcard_keeps_literal_ends RegExp.v8_text_limit (js "https://") [star]
           (js ".b.com") (js "https://x.b.com")
           (pattern_of sample_wildcard));
    reflexivity.
Defined.

(** X4.  Escaping makes every special character literal: [toWildcardRegExp]
    never throws, and whenever the engine runs the pattern built from a
    text without a star, the pattern accepts that text and nothing else. *)
Theorem star_free_pattern_matches_itself (engine : RegExp.Engine)
  (pattern o : jsstring) :
  includes star pattern = false ->
  engine (pattern_of pattern) o = None ->
  exists re,
    toWildcardRegExp pattern = Normal re
    /\ (RegExp.test engine re o = Normal true <-> o = pattern).
Proof.
  intros Hs Hruns. exists (pattern_of pattern).
  split; [apply toWildcardRegExp_pattern|].
  rewrite (test_pattern_of engine pattern o Hruns).
  apply wildcard_star_free. assumption.
Qed.

Lemma star_free_pattern_matches_itself_witness :
  exists re,
    toWildcardRegExp (js "https://a.b(c)+[d]") = Normal re
    /\ (RegExp.test RegExp.v8_text_limit re (js "https://aXb(c)+[d]") = Normal true
        <-> js "https://aXb(c)+[d]" = js "https://a.b(c)+[d]").
Proof.
  apply (star_free_pattern_matches_itself RegExp.v8_text_limit
           (js "https://a.b(c)+[d]") (js "https://aXb(c)+[d]"));
    reflexivity.
Defined.

(** X5.  A configuration that lists a bare ["*"] among its tokens grants
    every origin that holds no line terminator and on which the engine runs
    the configuration's patterns. *)
Theorem bare_star_token_opens_policy (engine : RegExp.Engine)
  (raw o : jsstring) :
  In [star] (tokenize raw) ->
  forallb not_line_terminator o = true ->
  engine_runs_tokens engine raw o ->
  exists opts,
    createCorsMiddleware (Some raw) = Normal opts
    /\ decision engine opts (Some o) = Normal true.
Proof.
  intros Hin Ho Hruns. unfold createCorsMiddleware.
  destruct (negb (truthy_string raw) || str_eqb raw (js "*"));
    [eexists; split; reflexivity|].
  destruct (parseAllowedOrigins raw) as [allowed|m] eqn:E;
    [|rewrite parseAllowedOrigins_spec in E; discriminate].
  eexists. split; [reflexivity|]. rewrite decision_callback.
  destruct (isAllowed_tokens engine raw allowed o E Hruns)
    as (verdict & Ev & H).
  rewrite Ev. f_equal. apply H. right. exists [star].
  split; [assumption|]. apply wildcard_bare_star. assumption.
Qed.

Lemma bare_star_token_opens_policy_witness :
  exists opts,
    createCorsMiddleware (Some (js "https://a.com, * ")) = Normal opts
    /\ decision RegExp.v8_text_limit opts (Some (js "http://anything.example"))
       = Normal true.
Proof.
  apply (bare_star_token_opens_policy RegExp.v8_text_limit (js "https://a.com, * ")
           (js "http://anything.example")).
  - vm_compute. auto.
  - reflexivity.
  - intros token Hin Hs. vm_compute in Hin.
    destruct Hin as [<- | [<- | []]]; [discriminate Hs | reflexivity].
Defined.

End OriginPolicyExtras.

(* ================================================================== *)
(** ** Escaping and tokens *)

Section EscapingAndTokens.

Import RegExp Scenario.

Lemma compile_escapeRegExp (value : jsstring) :
  compile (escapeRegExp value) = Normal (literal_pattern value).
Proof.
  induction value as [|c value IH]; [reflexivity|].
  pose proof (escapeRegExp_head value) as Hhd.
  rewrite escapeRegExp_cons. cbn [literal_pattern map].
  fold (literal_pattern value).
  destruct (escape_class c) eqn:Ec; cbn [app].
  - cbn [compile].
    change (N.eqb backslash caret) with false.
    change (N.eqb backslash dollar) with false.
    change (N.eqb backslash backslash) with true. cbv iota.
    rewrite <- escape_class_syntax, Ec.
    rewrite (compile_quantifier _ _ Hhd), IH. reflexivity.
  - pose proof (escape_class_false _ Ec) as (H1 & H2 & H3 & H4 & _).
    cbn [compile]. rewrite H1, H2, H3, H4.
    rewrite <- escape_class_syntax, Ec.
    rewrite (compile_quantifier _ _ Hhd), IH. reflexivity.
Qed.

Lemma matches_literal (value : jsstring) (b : bool) (s : jsstring) :
  matches (literal_pattern value) b s = true <-> exists r, s = value ++ r.
Proof.
  revert b s. induction value as [|c value IH]; intros b s.
  - simpl. split; [eauto | reflexivity].
  - cbn [literal_pattern map matches atom_matches].
    fold (literal_pattern value). destruct s as [|x s].
    + split; [discriminate | intros (r & E); discriminate].
    + rewrite andb_true_iff, N.eqb_eq, IH. split.
      * intros [-> (r & ->)]. exists r. reflexivity.
      * intros (r & E). inversion E; subst. eauto.
Qed.

Lemma search_literal (value : jsstring) (b : bool) (s : jsstring) :
  search (literal_pattern value) b s = true
  <-> exists l r, s = l ++ value ++ r.
Proof.
  revert b. induction s as [|x s IH]; intros b; cbn [search];
    rewrite orb_true_iff, matches_literal.
  - split.
    + intros [(r & E) | H]; [|discriminate]. exists [], r. assumption.
    + intros (l & r & E). left. destruct l; [eauto|discriminate].
  - rewrite IH. split.
    + intros [(r & E) | (l & r & E)].
      * exists [], r. assumption.
      * exists (x :: l), r. rewrite E. reflexivity.
    + intros ([|y l] & r & E).
      * left. eauto.
      * right. inversion E; subst. eauto.
Qed.

(** X6.  [escapeRegExp] turns any text into the source of a pattern that
    [new RegExp] accepts and that matches that text literally: whenever the
    engine runs the pattern on a subject, it finds a match exactly when the
    text occurs in the subject. *)
Theorem escapeRegExp_is_literal (engine : Engine) (value s : jsstring) :
  engine (literal_pattern value) s = None ->
  exists re,
    compile (escapeRegExp value) = Normal re
    /\ (test engine re s = Normal true
        <-> exists l r, s = l ++ value ++ r).
Proof.
  intros Hruns. exists (literal_pattern value).
  split; [apply compile_escapeRegExp|].
  rewrite (test_runs engine _ _ Hruns).
  rewrite <- (search_literal value true s). unfold accepts. split.
  - intros E. injection E. trivial.
  - intros E. rewrite E. reflexivity.
Qed.

Lemma escapeRegExp_is_literal_witness :
  exists re,
    compile (escapeRegExp (js "a.b")) = Normal re
    /\ (test v8_text_limit re (js "xa.by") = Normal true
        <-> exists l r, js "xa.by" = l ++ js "a.b" ++ r).
Proof.
  apply (escapeRegExp_is_literal v8_text_limit (js "a.b") (js "xa.by")).
  reflexivity.
Defined.

Lemma trim_decompose (s : jsstring) :
  exists front back,
    s = front ++ trim s ++ back
    /\ (forall c rest, trim s = c :: rest -> isTrimmed c = false)
    /\ (forall rest c, trim s = rest ++ [c] -> isTrimmed c = false).
Proof.
  unfold trim, trimEnd.
  destruct (trimStart_spec s) as (ws & Es & _ & _).
  pose proof (trimStart_head s) as Hhd.
  set (t := trimStart s) in *.
  destruct (trimStart_spec (rev t)) as (ws2 & Et & _ & _).
  pose proof (trimStart_head (rev t)) as Hhd2.
  set (u := trimStart (rev t)) in *.
  assert (Ht : t = rev u ++ rev ws2).
  { rewrite <- rev_app_distr, <- Et, rev_involutive. reflexivity. }
  exists ws, (rev ws2). split; [rewrite <- Ht; exact Es|]. split.
  - intros c rest E. rewrite Ht, E in Hhd. exact Hhd.
  - intros rest c E. apply (f_equal (@rev code_unit)) in E.
    rewrite rev_involutive, rev_app_distr in E. simpl in E.
    rewrite E in Hhd2. exact Hhd2.
Qed.

(** X7.  Every token of a configuration is non-empty, holds no comma, and
    neither begins nor ends with white space or a line terminator. *)
Theorem tokens_are_clean (raw token : jsstring) :
  In token (tokenize raw) ->
  token <> []
  /\ ~ In comma token
  /\ (forall c rest, token = c :: rest -> isTrimmed c = false)
  /\ (forall rest c, token = rest ++ [c] -> isTrimmed c = false).
Proof.
  intros H. apply tokenize_In in H. destruct H as [Hne (piece & Hin & ->)].
  destruct (trim_decompose piece) as (front & back & E & Hhd & Hlast).
  split; [assumption|]. split; [|split; assumption].
  intros Hc. apply (split_no_sep comma raw piece Hin).
  rewrite E. apply in_or_app. right. apply in_or_app. left. assumption.
Qed.

Lemma tokens_are_clean_witness :
  js "https://a.com" <> []
  /\ ~ In comma (js "https://a.com")
  /\ (forall c rest, js "https://a.com" = c :: rest -> isTrimmed c = false)
  /\ (forall rest c, js "https://a.com" = rest ++ [c] ->
                     isTrimmed c = false).
Proof.
  apply (tokens_are_clean (js "  https://a.com ,https://*.b.com")
           (js "https://a.com")).
  vm_compute. auto.
Defined.

End EscapingAndTokens.

(* ================================================================== *)
(** ** Storage-client configuration: further properties *)

Section StorageConfigurationMore.

Import Cloudinary Scenario.

Lemma truthy_Some (v : option jsstring) :
  truthy v = true <-> exists value, v = Some value /\ value <> [].
Proof.
  destruct v as [[|c value]|]; simpl; split; try discriminate.
  - intros (value & E & Hne). inversion E; subst. contradiction.
  - intros _. eexists. split; [reflexivity | discriminate].
  - reflexivity.
  - intros (value & E & _). discriminate.
Qed.

Lemma first_missing_None_iff (env : Env) :
  first_missing env = None
  <-> forall name, In name required -> truthy (env name) = true.
Proof.
  split; [apply first_missing_None|]. intros H.
  destruct (first_missing env) as [name|] eqn:E; [|reflexivity].
  apply first_missing_Some in E. destruct E as [Hin Hf].
  rewrite (H name Hin) in Hf. discriminate.
Qed.

(** X8.  With the flag unset, the call returns normally exactly when each of
    the three variables holds a non-empty string (an empty value is
    rejected like an unset one); the SDK then holds exactly the three
    values read, and the flag is set. *)
Theorem ensureConfigured_succeeds_iff (env : Env) (st : State) :
  configured st = false ->
  (fst (ensureConfigured env st) = Normal tt
   <-> forall name, In name required ->
         exists value, env name = Some value /\ value <> [])
  /\ (fst (ensureConfigured env st) = Normal tt ->
      exists cn key secret,
        env CLOUDINARY_CLOUD_NAME = Some cn
        /\ env CLOUDINARY_API_KEY = Some key
        /\ env CLOUDINARY_API_SECRET = Some secret
        /\ snd (ensureConfigured env st)
           = {| configured := true;
                sdk_config := Some {| cloud_name := cn; api_key := key;
                                      api_secret := secret |} |}).
Proof.
  intros Hc.
  assert (Hok : fst (ensureConfigured env st) = Normal tt
                <-> first_missing env = None).
  { destruct (first_missing env) as [name|] eqn:Hm.
    - rewrite (ensureConfigured_throws env st name Hc Hm). simpl.
      split; discriminate.
    - destruct (ensureConfigured_configures env st Hc Hm)
        as (cn & key & secret & _ & _ & _ & E).
      rewrite E. simpl. tauto. }
  split.
  - rewrite Hok, first_missing_None_iff. split; intros H name Hin.
    + apply truthy_Some. auto.
    + apply truthy_Some. auto.
  - intros H. apply Hok in H.
    destruct (ensureConfigured_configures env st Hc H)
      as (cn & key & secret & E1 & E2 & E3 & E).
    exists cn, key, secret. rewrite E. auto.
Qed.

Lemma ensureConfigured_succeeds_iff_witness :
  (fst (ensureConfigured full_env fresh) = Normal tt
   <-> forall name, In name required ->
         exists value, full_env name = Some value /\ value <> [])
  /\ (fst (ensureConfigured full_env fresh) = Normal tt ->
      exists cn key secret,
        full_env CLOUDINARY_CLOUD_NAME = Some cn
        /\ full_env CLOUDINARY_API_KEY = Some key
        /\ full_env CLOUDINARY_API_SECRET = Some secret
        /\ snd (ensureConfigured full_env fresh)
           = {| configured := true;
                sdk_config := Some {| cloud_name := cn; api_key := key;
                                      api_secret := secret |} |}).
Proof.
  apply (ensureConfigured_succeeds_iff full_env fresh). reflexivity.
Defined.

Lemma ensureConfigured_keeps_preset (preset : option Credentials)
  (env : Env) (st : State) :
  ((configured st = false -> sdk_config st = preset)
   /\ (configured st = true ->
       exists c, sdk_config st = Some c
                 /\ cloud_name c <> [] /\ api_key c <> []
                 /\ api_secret c <> [])) ->
  let st' := snd (ensureConfigured env st) in
  (configured st' = false -> sdk_config st' = preset)
  /\ (configured st' = true ->
      exists c, sdk_config st' = Some c
                /\ cloud_name c <> [] /\ api_key c <> []
                /\ api_secret c <> []).
Proof.
  intros Hinv. destruct (configured st) eqn:Hc.
  - rewrite (ensureConfigured_done env st Hc). simpl. rewrite Hc. exact Hinv.
  - destruct (first_missing env) as [name|] eqn:Hm.
    + rewrite (ensureConfigured_throws env st name Hc Hm). simpl.
      rewrite Hc. exact Hinv.
    + destruct (ensureConfigured_configures env st Hc Hm)
        as (cn & key & secret & E1 & E2 & E3 & E).
      rewrite E. simpl. split; [discriminate|]. intros _.
      eexists. split; [reflexivity|]. simpl.
      pose proof (first_missing_None env Hm) as Ht.
      repeat split.
      * pose proof (Ht CLOUDINARY_CLOUD_NAME (or_introl eq_refl)) as H.
        rewrite E1 in H. intros ->. discriminate H.
      * pose proof (Ht CLOUDINARY_API_KEY (or_intror (or_introl eq_refl)))
          as H.
        rewrite E2 in H. intros ->. discriminate H.
      * pose proof (Ht CLOUDINARY_API_SECRET
                      (or_intror (or_intror (or_introl eq_refl)))) as H.
        rewrite E3 in H. intros ->. discriminate H.
Qed.

(** X9.  Whatever the SDK holds when the module is loaded, and whatever
    series of calls follows, under whatever environments and with failures
    in between: while the flag is unset the SDK still holds what it held at
    load, no call having touched it; and once the flag is set the SDK holds
    three non-empty strings. *)
Theorem configured_flag_tracks_credentials
  (preset : option Credentials) (envs : list Env) :
  let st := after_calls envs (loaded preset) in
  (configured st = false -> sdk_config st = preset)
  /\ (configured st = true ->
      exists c, sdk_config st = Some c
                /\ cloud_name c <> [] /\ api_key c <> []
                /\ api_secret c <> []).
Proof.
  unfold after_calls.
  assert (Hinit : (configured (loaded preset) = false ->
                   sdk_config (loaded preset) = preset)
                  /\ (configured (loaded preset) = true ->
                      exists c, sdk_config (loaded preset) = Some c
                                /\ cloud_name c <> [] /\ api_key c <> []
                                /\ api_secret c <> [])).
  { simpl. split; [reflexivity | discriminate]. }
  revert Hinit. generalize (loaded preset).
  induction envs as [|env envs IH]; intros st Hinv; [exact Hinv|].
  simpl. apply IH. apply ensureConfigured_keeps_preset. exact Hinv.
Qed.

(** X10.  Once a call has returned normally, no later series of calls
    changes the state: credentials placed in the environment afterwards are
    never picked up. *)
Theorem credentials_are_frozen (env : Env) (st st' : State)
  (later : list Env) :
  ensureConfigured env st = (Normal tt, st') ->
  after_calls later st' = st'.
Proof.
  intros E.
  assert (Hc : configured st' = true).
  { destruct (ensureConfigured_outcome env st)
      as [(st1 & E1 & H1) | (name & _ & _ & E1)]; rewrite E in E1.
    - inversion E1; subst. assumption.
    - discriminate. }
  clear E. unfold after_calls.
  induction later as [|env2 later IH]; [reflexivity|].
  simpl. rewrite (ensureConfigured_done env2 st' Hc). exact IH.
Qed.

Lemma credentials_are_frozen_witness :
  after_calls [empty_env; env_without_key; full_env]
    {| configured := true;
       sdk_config := Some {| cloud_name := js "demo"; api_key := js "key";
                             api_secret := js "secret" |} |}
  = {| configured := true;
       sdk_config := Some {| cloud_name := js "demo"; api_key := js "key";
                             api_secret := js "secret" |} |}.
Proof.
  apply (credentials_are_frozen full_env fresh). reflexivity.
Defined.

End StorageConfigurationMore.

(* ================================================================== *)
(** ** The API base URL *)

Section BaseUrl.

Import RegExp Replace Home Scenario.

(** The matcher that returns the rest agrees with the boolean matcher. *)
Lemma match_rest_matches (re : regexp) :
  forall b s, matches re b s = true <-> match_rest re b s <> None.
Proof.
  induction re as [|t re IH]; intros b s.
  - simpl. split; [discriminate | reflexivity].
  - destruct t as [| | a | a].
    + cbn [matches match_rest]. destruct b; simpl; [apply IH|].
      split; [discriminate | intros H; contradiction].
    + cbn [matches match_rest]. destruct (is_empty s); simpl; [apply IH|].
      split; [discriminate | intros H; contradiction].
    + cbn [matches match_rest]. destruct s as [|c s].
      * split; [discriminate | intros H; contradiction].
      * destruct (atom_matches a c); simpl; [apply IH|].
        split; [discriminate | intros H; contradiction].
    + revert b. induction s as [|c s IHs]; intros b.
      * apply IH.
      * rewrite matches_star_unfold.
        change (match_rest (Star a :: re) b (c :: s))
          with (if atom_matches a c
                then match match_rest (Star a :: re) false s with
                     | Some r => Some r
                     | None => match_rest re b (c :: s)
                     end
                else match_rest re b (c :: s)).
        rewrite orb_true_iff, andb_true_iff, IHs, IH.
        destruct (atom_matches a c).
        -- destruct (match_rest (Star a :: re) false s) as [r|].
           ++ split; [discriminate|]. intros _. left. split; [reflexivity|].
              discriminate.
           ++ split; [intros [[_ H] | H]; [contradiction | assumption]|].
              auto.
        -- split; [intros [[H _] | H]; [discriminate | assumption] | auto].
Qed.

Lemma match_slash_run (b : bool) (s : jsstring) :
  match_rest [Star (Char slash); AssertEnd] b s
  = if all_slashes s then Some [] else None.
Proof.
  revert b. induction s as [|c s IH]; intros b; [reflexivity|].
  change (match_rest [Star (Char slash); AssertEnd] b (c :: s))
    with (if N.eqb slash c
          then match match_rest [Star (Char slash); AssertEnd] false s with
               | Some r => Some r
               | None => None
               end
          else None).
  rewrite IH. unfold all_slashes. cbn [forallb].
  destruct (N.eqb slash c); [|reflexivity].
  destruct (forallb (N.eqb slash) s); reflexivity.
Qed.

Lemma match_trailing_slashes (b : bool) (s : jsstring) :
  match_rest trailing_slashes b s
  = if negb (is_empty s) && all_slashes s then Some [] else None.
Proof.
  destruct s as [|c s]; [reflexivity|].
  change (match_rest trailing_slashes b (c :: s))
    with (if N.eqb slash c
          then match_rest [Star (Char slash); AssertEnd] false s
          else None).
  rewrite match_slash_run. unfold all_slashes. cbn [forallb is_empty negb].
  destruct (N.eqb slash c); reflexivity.
Qed.

Lemma exec_trailing_slashes_flag (b : bool) (s : jsstring) :
  exec trailing_slashes b s = exec trailing_slashes false s.
Proof.
  destruct s as [|c s]; cbn [exec]; rewrite !match_trailing_slashes;
    reflexivity.
Qed.

(** [normalizeBaseUrl], one code unit at a time. *)
Lemma normalizeBaseUrl_cons (c : code_unit) (s : jsstring) :
  normalizeBaseUrl (c :: s)
  = if all_slashes (c :: s) then [] else c :: normalizeBaseUrl s.
Proof.
  unfold normalizeBaseUrl, replace. cbn [exec].
  rewrite match_trailing_slashes. cbn [is_empty negb andb].
  destruct (all_slashes (c :: s)); [reflexivity|].
  rewrite (exec_trailing_slashes_flag true s).
  destruct (exec trailing_slashes false s) as [[before after]|];
    reflexivity.
Qed.

Lemma all_slashes_ends (c : code_unit) (s : jsstring) :
  all_slashes (c :: s) = true -> ends_with_slash (c :: s).
Proof.
  intros H. unfold all_slashes in H. rewrite forallb_forall in H.
  destruct (exists_last (l := c :: s)) as (front & x & E); [discriminate|].
  exists front. rewrite E. f_equal. f_equal.
  symmetry. apply N.eqb_eq. apply H. rewrite E. apply in_or_app.
  right. left. reflexivity.
Qed.

Lemma ends_with_slash_cons (c : code_unit) (s : jsstring) :
  ends_with_slash s -> ends_with_slash (c :: s).
Proof. intros (front & ->). exists (c :: front). reflexivity. Qed.

Lemma normalizeBaseUrl_strips (s : jsstring) :
  exists tail,
    s = normalizeBaseUrl s ++ tail
    /\ all_slashes tail = true
    /\ ~ ends_with_slash (normalizeBaseUrl s).
Proof.
  induction s as [|c s (tail & E & Ht & Hn)].
  - exists []. repeat split. intros (front & H).
    destruct front; discriminate.
  - rewrite normalizeBaseUrl_cons. destruct (all_slashes (c :: s)) eqn:Ea.
    + exists (c :: s). repeat split; [assumption|]. intros (front & H).
      destruct front; discriminate.
    + exists tail. split; [simpl; rewrite <- E; reflexivity|].
      split; [assumption|]. intros (front & H).
      destruct front as [|x front]; simpl in H; inversion H; subst.
      * rewrite H2 in E. simpl in E. subst s.
        unfold all_slashes in Ea, Ht. cbn [forallb] in Ea.
        rewrite Ht, N.eqb_refl in Ea. discriminate.
      * apply Hn. exists front. assumption.
Qed.

Lemma normalizeBaseUrl_fixed (s : jsstring) :
  ~ ends_with_slash s -> normalizeBaseUrl s = s.
Proof.
  induction s as [|c s IH]; intros H; [reflexivity|].
  rewrite normalizeBaseUrl_cons. destruct (all_slashes (c :: s)) eqn:Ea.
  - exfalso. apply H. apply all_slashes_ends. assumption.
  - rewrite IH; [reflexivity|]. intros Hs. apply H.
    apply ends_with_slash_cons. assumption.
Qed.

Lemma all_slashes_app (s t : jsstring) :
  all_slashes (s ++ t) = all_slashes s && all_slashes t.
Proof. apply forallb_app. Qed.

Lemma normalizeBaseUrl_app_slashes (s tail : jsstring) :
  all_slashes tail = true ->
  normalizeBaseUrl (s ++ tail) = normalizeBaseUrl s.
Proof.
  intros Ht. induction s as [|c s IH].
  - simpl. destruct tail as [|x tail]; [reflexivity|].
    rewrite normalizeBaseUrl_cons, Ht. reflexivity.
  - cbn [app]. rewrite !normalizeBaseUrl_cons, IH.
    replace (all_slashes (c :: s ++ tail)) with (all_slashes (c :: s));
      [reflexivity|].
    change (all_slashes (c :: s ++ tail))
      with (N.eqb slash c && all_slashes (s ++ tail)).
    rewrite all_slashes_app, Ht, andb_true_r. reflexivity.
Qed.

End BaseUrl.

Section BaseUrlExtras.

Import Home Scenario.

(** X11.  [normalizeBaseUrl] removes the whole run of slashes that ends the
    text and nothing else: the text is the result followed by slashes only,
    and the result does not end with a slash. *)
Theorem normalizeBaseUrl_strips_trailing_slashes (baseUrl : jsstring) :
  exists tail,
    baseUrl = normalizeBaseUrl baseUrl ++ tail
    /\ all_slashes tail = true
    /\ ~ ends_with_slash (normalizeBaseUrl baseUrl).
Proof. apply normalizeBaseUrl_strips. Qed.

(** X12.  [normalizeBaseUrl] is idempotent, and it leaves a text unchanged
    exactly when the text does not end with a slash; slashes inside the
    text are never touched. *)
Theorem normalizeBaseUrl_idempotent (baseUrl : jsstring) :
  normalizeBaseUrl (normalizeBaseUrl baseUrl) = normalizeBaseUrl baseUrl
  /\ (normalizeBaseUrl baseUrl = baseUrl <-> ~ ends_with_slash baseUrl).
Proof.
  destruct (normalizeBaseUrl_strips baseUrl) as (tail & E & Ht & Hn).
  split; [apply normalizeBaseUrl_fixed; assumption|]. split.
  - intros H. rewrite <- H. assumption.
  - apply normalizeBaseUrl_fixed.
Qed.

(** X13.  The upload URL does not depend on the slashes that end the
    configured base: a non-empty base gives the same URL with or without
    them; and whatever the variable holds, the base the page uses never
    ends with a slash, so the URL has a single slash before [upload]. *)
Theorem upload_url_ignores_trailing_slashes (base tail : jsstring) :
  base <> [] -> all_slashes tail = true ->
  upload_url (Some (base ++ tail)) = upload_url (Some base)
  /\ forall fromEnv, ~ ends_with_slash (apiBaseUrl fromEnv).
Proof.
  intros Hne Ht. split.
  - unfold upload_url, apiBaseUrl.
    destruct base as [|c base]; [contradiction|]. cbn [app truthy_string
      is_empty negb]. change (c :: base ++ tail) with ((c :: base) ++ tail).
    rewrite normalizeBaseUrl_app_slashes by assumption. reflexivity.
  - intros fromEnv. unfold apiBaseUrl.
    match goal with
    | |- ~ ends_with_slash (normalizeBaseUrl ?s) =>
        destruct (normalizeBaseUrl_strips s) as (t & _ & _ & Hn)
    end.
    exact Hn.
Qed.

Lemma upload_url_ignores_trailing_slashes_witness :
  upload_url (Some (js "https://api.example" ++ js "//"))
  = upload_url (Some (js "https://api.example"))
  /\ forall fromEnv, ~ ends_with_slash (apiBaseUrl fromEnv).
Proof.
  apply (upload_url_ignores_trailing_slashes (js "https://api.example")
           (js "//")).
  - discriminate.
  - reflexivity.
Defined.



(** X15.  The text preview is the first 600 code units of the file's text;
    the ellipsis line is shown exactly when the text has 600 code units or
    more, so also under a text of exactly 600 that is shown whole; and the
    preview pane is shown exactly when the text is not empty. *)
Theorem text_preview_bounds (text : jsstring) :
  let shown := text_preview (Some text) in
  List.length shown = Nat.min 600 (List.length text)
  /\ (exists rest, text = shown ++ rest)
  /\ (ellipsis_shown shown = true <-> (600 <= List.length text)%nat)
  /\ (shown = text <-> (List.length text <= 600)%nat)
  /\ (preview_shown (Some shown) = true <-> text <> []).
Proof.
  unfold text_preview. cbv zeta.
  assert (Hlen : List.length (firstn 600 text)
                 = Nat.min 600 (List.length text)) by apply length_firstn.
  split; [exact Hlen|]. split.
  - exists (skipn 600 text). symmetry. apply firstn_skipn.
  - split; [|split].
    + unfold ellipsis_shown. rewrite Hlen, Nat.leb_le. split.
      * intros H. apply Nat.min_glb_r in H. exact H.
      * intros H. rewrite Nat.min_l by assumption. apply Nat.le_refl.
    + split.
      * intros H. rewrite <- H, Hlen. apply Nat.le_min_l.
      * intros H. apply firstn_all2. assumption.
    + destruct text as [|c text]; simpl.
      * split; [discriminate | intros H; contradiction].
      * split; [discriminate | reflexivity].
Qed.

End BaseUrlExtras.

(* ================================================================== *)
(** ** Submitting the form *)

Section SubmitExtras.

Import Page Home Scenario.

Context {number : Type} (number_truthy : number -> bool).



(** X17.  With a file chosen, a response outside 200..299 always ends in
    the message drawn from the body by priority ([error], [error.message],
    [message], else the generic text; the generic text too when the body
    does not parse), shown as the error and in the toast, and never in a
    result, even when the body carries both URLs. *)
Theorem onSubmit_reports_server_error (status : N)
  (body : option (json number)) (st : UiState) (f : File) :
  file st = Some f -> response_ok status = false ->
  let data := match body with Some j => j | None => JNull end in
  let message := message_by_priority generic_by_design data status in
  let st' := onSubmit number_truthy (Responded status body) st in
  error st' = Some message
  /\ result st' = None
  /\ toasts st'
     = ToastError title_upload_failed (Some message) :: toasts st
  /\ (body = None -> message = generic_by_design status).
Proof.
  intros Ef Hok data message st'. subst st'. unfold onSubmit.
  cbn [file setResult setError]. rewrite Ef. unfold on_response.
  rewrite Hok. cbn. fold data.
  rewrite (extractErrorMessage_priority number_truthy data status).
  repeat split. intros ->. reflexivity.
Qed.

End SubmitExtras.

Lemma onSubmit_reports_server_error_witness :
  Home.error
    (Home.onSubmit (fun n : N => negb (N.eqb n 0))
       (Home.Responded 502 (Some Scenario.good_body))
       Scenario.idle_with_file)
  = Some (js "Erreur upload (502)")
  /\ Home.result
       (Home.onSubmit (fun n : N => negb (N.eqb n 0))
          (Home.Responded 502 (Some Scenario.good_body))
          Scenario.idle_with_file)
     = None
  /\ Home.toasts
       (Home.onSubmit (fun n : N => negb (N.eqb n 0))
          (Home.Responded 502 (Some Scenario.good_body))
          Scenario.idle_with_file)
     = Home.ToastError Home.title_upload_failed
         (Some (js "Erreur upload (502)"))
       :: Home.toasts Scenario.idle_with_file
  /\ (Some Scenario.good_body = None ->
      js "Erreur upload (502)" = generic_by_design 502).
Proof.
  apply (onSubmit_reports_server_error (fun n : N => negb (N.eqb n 0))
           502 (Some Scenario.good_body) Scenario.idle_with_file
           Scenario.sample_file);
    reflexivity.
Defined.

Section SubmitSuccess.

Import Page Home Scenario.

Context {number : Type} (number_truthy : number -> bool).

Lemma on_response_result (status : N) (data : json number) (st : UiState)
  (r : UploadResponse) :
  result st = None ->
  (result (on_response number_truthy status data st) = Some r
   <-> response_ok status = true
       /\ exists props,
            data = JObject props
            /\ lookup (js "publicFileUrl") props
               = Some (JString (publicFileUrl r))
            /\ lookup (js "qrCodeUrl") props = Some (JString (qrCodeUrl r))
            /\ downloadFileUrl r = string_field data (js "downloadFileUrl")
            /\ qrTargetUrl r = string_field data (js "qrTargetUrl")
            /\ originalFileName r
               = string_field data (js "originalFileName")
            /\ mimeType r = string_field data (js "mimeType")).
Proof.
  intros Hnone. unfold on_response.
  destruct (response_ok status); cbn [negb].
  2:{ cbn. rewrite Hnone. split; [discriminate|]. intros [H _].
      discriminate. }
  destruct data as [| b | x | s | items | props];
    cbn [truthy_value typeof is_object_tag negb orb optional_get].
  1-5: cbn; try rewrite Hnone;
       repeat match goal with
              | |- context [if ?c then _ else _] => destruct c
              end; cbn; try rewrite Hnone;
       (split; [discriminate|]);
       intros [_ (props & E & _)]; discriminate.
  destruct (lookup (js "publicFileUrl") props)
    as [[| b | x | p | items | o]|] eqn:Ep;
    cbn [typeof is_string_tag negb orb];
    try (cbn [result raise_toast setError]; rewrite Hnone;
         split; [discriminate|];
         intros [_ (props' & E & H & _)]; inversion E; subst props';
         rewrite Ep in H; discriminate).
  destruct (lookup (js "qrCodeUrl") props)
    as [[| b | x | q | items | o]|] eqn:Eq;
    cbn [typeof is_string_tag negb orb];
    try (cbn [result raise_toast setError]; rewrite Hnone;
         split; [discriminate|];
         intros [_ (props' & E & _ & H & _)]; inversion E; subst props';
         rewrite Eq in H; discriminate).
  cbn [result raise_toast setResult string_value]. split.
  - intros H. inversion H; subst r. cbn [publicFileUrl qrCodeUrl
      downloadFileUrl qrTargetUrl originalFileName mimeType].
    split; [reflexivity|]. exists props. repeat split; assumption.
  - intros [_ (props' & E & Hp & Hq & H1 & H2 & H3 & H4)].
    inversion E; subst props'. rewrite Ep in Hp. rewrite Eq in Hq.
    destruct r; cbn [publicFileUrl qrCodeUrl downloadFileUrl qrTargetUrl
      originalFileName mimeType] in *.
    inversion Hp; inversion Hq; subst. reflexivity.
Qed.

(** X18.  A submit ends with a result exactly when a file was chosen, the
    response status is in 200..299 and the body is an object whose
    [publicFileUrl] and [qrCodeUrl] are both strings; the result then
    carries those two strings, and each optional field is the body's value
    when that is a string and is absent otherwise. *)
Theorem onSubmit_success_iff (outcome : fetch_outcome number)
  (st : UiState) (r : UploadResponse) :
  result (onSubmit number_truthy outcome st) = Some r
  <-> file st <> None
      /\ exists status props,
           outcome = Responded status (Some (JObject props))
           /\ response_ok status = true
           /\ lookup (js "publicFileUrl") props
              = Some (JString (publicFileUrl r))
           /\ lookup (js "qrCodeUrl") props = Some (JString (qrCodeUrl r))
           /\ downloadFileUrl r
              = string_field (JObject props) (js "downloadFileUrl")
           /\ qrTargetUrl r
              = string_field (JObject props) (js "qrTargetUrl")
           /\ originalFileName r
              = string_field (JObject props) (js "originalFileName")
           /\ mimeType r = string_field (JObject props) (js "mimeType").
Proof.
  unfold onSubmit. cbn [file setResult setError].
  destruct (file st) as [f|].
  - destruct outcome as [err | status body].
    + cbn. split; [discriminate|].
      intros [_ (status & props & E & _)]. discriminate.
    + cbn [result setIsLoading].
      rewrite on_response_result by reflexivity. split.
      * intros [Hok (props & E & H)]. split; [discriminate|].
        exists status, props. destruct body as [j|]; [|discriminate].
        subst j. auto.
      * intros [_ (status' & props & E & Hok & H)].
        inversion E; subst. split; [assumption|]. exists props. auto.
  - cbn. split; [discriminate|]. intros [H _]. contradiction.
Qed.

End SubmitSuccess.
